(** * G3D shader program wrapper (src/core/program.ts): a shallow embedding

    The class [Program] compiles and links two shader stages, reflects the
    active attributes and uniforms of the linked program into two
    name-indexed tables, and dispatches uniform uploads and attribute
    bindings through those tables.

    The embedding keeps the shape of the TypeScript source:
    - JavaScript values are a small tagged union [jsval];
    - the WebGL context is a deterministic fake: a [Driver] answers the
      queries (compile status, logs, active variables, locations) and a
      [GLState] records every method invoked on the context, in order;
    - [throw] is the [Throw] result of a state-and-error monad; the state
      survives a throw, as the calls already issued to the GPU do;
    - the tables [uniforms] and [attributes] are JavaScript objects made by
      the literal [{}]: own properties in a [gmap], and the property read
      follows the prototype chain up to [Object.prototype]. *)

From Stdlib Require Import ZArith List Ascii String Bool Lia.
From stdpp Require Import base option strings pretty gmap list.

Local Open Scope string_scope.
Local Open Scope Z_scope.

(** ** JavaScript values and errors *)

(** [JRef] is an opaque host object (shader, program, buffer, texture,
    typed array, uniform location), compared by identity.  Numbers are the
    integers the program handles (enum values, counters, locations, sizes),
    all far below 2^53, where doubles are exact; [JNaN] is the one
    non-integer the code can produce. *)
Inductive jsval : Type :=
| JUndefined
| JNull
| JBool (b : bool)
| JNum (z : Z)
| JNaN
| JStr (s : string)
| JRef (h : nat).

Inductive JSError : Type :=
| Error (message : string)
| TypeError (message : string).

Inductive Result (A : Type) : Type :=
| Ok (a : A)
| Throw (e : JSError).
Arguments Ok {A} a.
Arguments Throw {A} e.

#[global] Instance jsval_eq_dec : EqDecision jsval.
Proof. solve_decision. Defined.

(** [ToString] on the values that reach a [join] or a template literal. *)
Definition js_toString (v : jsval) : string :=
  match v with
  | JUndefined => "undefined"
  | JNull => "null"
  | JBool true => "true"
  | JBool false => "false"
  | JNum z => pretty z
  | JNaN => "NaN"
  | JStr s => s
  | JRef _ => "[object Object]"
  end.

(** [ToBoolean], the test of [if (x)]. *)
Definition js_truthy (v : jsval) : bool :=
  match v with
  | JUndefined | JNull | JNaN => false
  | JBool b => b
  | JNum z => negb (z =? 0)
  | JStr s => negb (String.eqb s "")
  | JRef _ => true
  end.

(** ** String primitives used by the source *)

Module JSString.

(** [s.split(sep)] for a one-character separator: never the empty list. *)
Fixpoint split (sep : ascii) (s : string) : list string :=
  match s with
  | EmptyString => [EmptyString]
  | String c rest =>
      if Ascii.eqb c sep then EmptyString :: split sep rest
      else match split sep rest with
           | seg :: segs => String c seg :: segs
           | [] => [String c EmptyString]
           end
  end.

(** [s.substr(0, n)]. *)
Fixpoint substr0 (n : nat) (s : string) : string :=
  match n, s with
  | S n', String c rest => String c (substr0 n' rest)
  | _, _ => EmptyString
  end.

(** [s[i]]: a one-character string, or [undefined] past the end. *)
Definition charAt (s : string) (i : nat) : jsval :=
  match String.get i s with
  | Some c => JStr (String c EmptyString)
  | None => JUndefined
  end.

Definition is_whitespace (c : ascii) : bool :=
  let n := nat_of_ascii c in
  existsb (Nat.eqb n) [9; 10; 11; 12; 13; 32; 160]%nat.

Definition digit_of (c : ascii) : option Z :=
  let n := Z.of_nat (nat_of_ascii c) in
  if (48 <=? n) && (n <=? 57) then Some (n - 48) else None.

(** [Number(x)] for [x] the result of [s[i]]: [undefined] is [NaN], a
    digit is its value, a white-space character is 0 (the trimmed string
    is empty), any other single character is [NaN].  Longer strings never
    reach it. *)
Definition Number (v : jsval) : jsval :=
  match v with
  | JStr (String c EmptyString) =>
      match digit_of c with
      | Some d => JNum d
      | None => if is_whitespace c then JNum 0 else JNaN
      end
  | JStr EmptyString => JNum 0
  | JNum z => JNum z
  | JBool true => JNum 1
  | JBool false | JNull => JNum 0
  | _ => JNaN
  end.

(** [s.indexOf(pat) !== -1]. *)
Fixpoint includes (pat s : string) : bool :=
  String.prefix pat s
  || match s with
     | EmptyString => false
     | String _ rest => includes pat rest
     end.

(** [s.replace(pat, "")] with a string pattern: the first occurrence only. *)
Fixpoint removeFirst (pat s : string) : string :=
  if String.prefix pat s then
    String.substring (String.length pat) (String.length s - String.length pat) s
  else match s with
       | EmptyString => EmptyString
       | String c rest => String c (removeFirst pat rest)
       end.

End JSString.

(** ** parseType (program.ts, lines 208-214) *)

Record ParsedType : Type := mkParsedType {
  baseType : string;
  vecType : string;
  baseVecType : string;
  vecSize : jsval;
}.

Definition parseType (type : string) : ParsedType :=
  let segs := JSString.split "_" type in
  let baseType := nth 0 segs EmptyString in
  let vecType := if (1 <? length segs)%nat then nth 1 segs EmptyString else "VEC1" in
  let baseVecType := JSString.substr0 3 vecType in
  let vecSize := JSString.Number (JSString.charAt vecType 3) in
  mkParsedType baseType vecType baseVecType vecSize.

(** The table of [getVariableType] (lines 125-130). *)
Definition types : list string :=
  [ "FLOAT"; "FLOAT_VEC2"; "FLOAT_VEC3"; "FLOAT_VEC4";
    "FLOAT_MAT2"; "FLOAT_MAT3"; "FLOAT_MAT4";
    "INT"; "INT_VEC2"; "INT_VEC3"; "INT_VEC4";
    "BOOL"; "BOOL_VEC2"; "BOOL_VEC3"; "BOOL_VEC4";
    "SAMPLER_2D"; "SAMPLER_CUBE" ].

(** ** The graphics context

    [GL.gl] is a process-wide WebGL context.  Its constants are read by
    name ([gl[types[i]]], [gl[baseType]], [gl[`TEXTURE${unit}`]]), so the
    constant table is part of the [Driver], together with the answers of the
    shader compiler, the linker and the reflection queries. *)

Record ActiveInfo : Type := mkActiveInfo {
  ai_name : string;
  ai_size : Z;
  ai_type : Z;   (** a [GLenum] *)
}.

Record Driver : Type := mkDriver {
  (** [gl[name]] for a constant; [undefined] when the context has none *)
  constant : string -> jsval;
  (** [getShaderParameter(shader, COMPILE_STATUS)], by stage and source *)
  compileStatus : jsval -> string -> bool;
  (** [getShaderInfoLog(shader)] *)
  shaderInfoLog : jsval -> string -> string;
  (** [getProgramParameter(program, LINK_STATUS)], by vertex and fragment source *)
  linkStatus : string -> string -> bool;
  (** [getProgramInfoLog(program)] *)
  programInfoLog : string -> string -> string;
  (** the active attributes and uniforms of the linked program, by index *)
  activeAttributes : string -> string -> list ActiveInfo;
  activeUniforms : string -> string -> list ActiveInfo;
  (** [getAttribLocation(program, name)] and [getUniformLocation(program, name)] *)
  attribLocation : string -> string -> string -> jsval;
  uniformLocation : string -> string -> string -> jsval;
}.

(** One method invocation on the context, as the GPU command stream sees it. *)
Inductive GLCall : Type :=
| Call (method : string) (args : list jsval).

Record GLState : Type := mkGLState {
  next_handle : nat;
  calls : list GLCall;
}.

(** [x === y] *)
Definition js_strict_eq (x y : jsval) : bool :=
  match x, y with
  | JNaN, _ | _, JNaN => false
  | _, _ => bool_decide (x = y)
  end.

(** The upload methods a WebGL context has among the names the dispatcher
    can build ("uniform" ++ size ++ "f"/"i" ++ "v" and
    "uniformMatrix" ++ size ++ "fv"); any other such name reads as
    [undefined] and calling it throws. *)
Definition uniformMethods : list string :=
  [ "uniform1fv"; "uniform2fv"; "uniform3fv"; "uniform4fv";
    "uniform1iv"; "uniform2iv"; "uniform3iv"; "uniform4iv";
    "uniformMatrix2fv"; "uniformMatrix3fv"; "uniformMatrix4fv" ].

Definition isFunction (method : string) : bool :=
  bool_decide (method ∈ uniformMethods).

(** ** State and exceptions *)

Definition M (S A : Type) : Type := S -> Result A * S.

Definition ret {S A} (a : A) : M S A := fun s => (Ok a, s).
Definition throw {S A} (e : JSError) : M S A := fun s => (Throw e, s).
Definition bind {S A B} (m : M S A) (k : A -> M S B) : M S B :=
  fun s => match m s with
           | (Ok a, s') => k a s'
           | (Throw e, s') => (Throw e, s')
           end.

Notation "'let*' x ':=' m 'in' k" := (bind m (fun x => k))
  (at level 10, x name, m at level 100, k at level 200).
Notation "m ';;' k" := (bind m (fun _ => k))
  (at level 100, k at level 200, right associativity).

(** A method of the context: the call is recorded, [result] is what the
    driver answers. *)
Definition invoke {A} (method : string) (args : list jsval) (result : A)
  : M GLState A :=
  fun st => (Ok result, mkGLState (next_handle st) (calls st ++ [Call method args])).

(** [createShader] and [createProgram] hand out a fresh object. *)
Definition create (method : string) (args : list jsval) : M GLState jsval :=
  fun st => (Ok (JRef (next_handle st)),
             mkGLState (S (next_handle st)) (calls st ++ [Call method args])).

(** ** Binding tables: JavaScript objects *)

Record Binding : Type := mkBinding {
  type : string;
  info : ActiveInfo;
  position : jsval;
  unit : option Z;   (** [undefined] or the texture unit *)
}.

Definition unit_val (b : Binding) : jsval :=
  match unit b with Some z => JNum z | None => JUndefined end.

(** An object created by [{}]: its own properties, and its prototype, which
    is [Object.prototype] ([None]) unless the assignment
    [obj["__proto__"] = res] has replaced it by a binding object. *)
Record JSObject : Type := mkJSObject {
  own : gmap string Binding;
  proto : option Binding;
}.

Definition emptyObject : JSObject := mkJSObject ∅ None.

(** What a property read on a table can give. *)
Inductive PropertyValue : Type :=
| PBinding (b : Binding)     (** a binding object *)
| PBuiltin (name : string)   (** a member of [Object.prototype] *)
| PInfo (i : ActiveInfo)     (** the [info] of a prototype binding *)
| PValue (v : jsval).        (** a primitive or a location, or [undefined] *)

(** The properties of [Object.prototype] (ECMAScript, with Annex B). *)
Definition objectPrototypeNames : list string :=
  [ "constructor"; "toString"; "toLocaleString"; "valueOf";
    "hasOwnProperty"; "isPrototypeOf"; "propertyIsEnumerable";
    "__proto__"; "__defineGetter__"; "__defineSetter__";
    "__lookupGetter__"; "__lookupSetter__" ].

Definition objectPrototype_get (k : string) : PropertyValue :=
  if bool_decide (k ∈ objectPrototypeNames) then PBuiltin k else PValue JUndefined.

(** [obj[k]] *)
Definition obj_get (o : JSObject) (k : string) : PropertyValue :=
  match own o !! k with
  | Some b => PBinding b
  | None =>
      match proto o with
      | None => objectPrototype_get k
      | Some b =>
          if String.eqb k "__proto__" then PBinding b
          else if String.eqb k "type" then PValue (JStr (type b))
          else if String.eqb k "info" then PInfo (info b)
          else if String.eqb k "position" then PValue (position b)
          else if String.eqb k "unit" then PValue (unit_val b)
          else objectPrototype_get k
      end
  end.

(** [obj[k] = b]: an own property, except that the key "__proto__" runs the
    setter inherited from [Object.prototype]. *)
Definition obj_set (o : JSObject) (k : string) (b : Binding) : JSObject :=
  if String.eqb k "__proto__" then mkJSObject (own o) (Some b)
  else mkJSObject (<[k := b]> (own o)) (proto o).

Definition pv_truthy (p : PropertyValue) : bool :=
  match p with
  | PBinding _ | PBuiltin _ | PInfo _ => true
  | PValue v => js_truthy v
  end.

(** [const { type } = p]: the [type] property of what was read. *)
Definition pv_type (p : PropertyValue) : jsval :=
  match p with
  | PBinding b => JStr (type b)
  | PInfo i => JNum (ai_type i)
  | PBuiltin _ | PValue _ => JUndefined
  end.

(** ** The class Program *)

Record Program : Type := mkProgram {
  glProgram : jsval;
  uniforms : option JSObject;     (** [undefined] until [initProgram] ends *)
  attributes : option JSObject;
  textureCount : Z;
  fShaderSource : string;
  vShaderSource : string;
}.

(** A method runs on [this] and on the context. *)
Definition Heap : Type := Program * GLState.

Definition gl {A} (m : M GLState A) : M Heap A :=
  fun h => let (r, st) := m (snd h) in (r, (fst h, st)).

Definition this : M Heap Program := fun h => (Ok (fst h), h).

Definition set_this (f : Program -> Program) : M Heap () :=
  fun h => (Ok (), (f (fst h), snd h)).

Definition set_textureCount (n : Z) (p : Program) : Program :=
  mkProgram (glProgram p) (uniforms p) (attributes p) n
            (fShaderSource p) (vShaderSource p).

Definition set_tables (program : jsval) (attrs unifs : JSObject) (p : Program) : Program :=
  mkProgram program (Some unifs) (Some attrs) (textureCount p)
            (fShaderSource p) (vShaderSource p).

(** The canonical name of a uniform (lines 196-199). *)
Definition canonicalName (name : string) : string :=
  if JSString.includes "[0]" name then JSString.removeFirst "[0]" name else name.

Section WithDriver.

Context (drv : Driver).

(** loadShader (lines 114-122) *)
Definition loadShader (type : jsval) (source : string) : M GLState jsval :=
  let* shader := create "createShader" [type] in
  invoke "shaderSource" [shader; JStr source] () ;;
  invoke "compileShader" [shader] () ;;
  let* status := invoke "getShaderParameter" [shader; constant drv "COMPILE_STATUS"]
                        (compileStatus drv type source) in
  if negb status then
    let* log := invoke "getShaderInfoLog" [shader] (shaderInfoLog drv type source) in
    throw (Error ("An error occurred compiling the shaders: " +:+ log))
  else ret shader.

(** getVariableType (lines 124-139); the message of the final [throw] is
    the template literal as written, which has no placeholder. *)
Fixpoint getVariableType_from (ts : list string) (value : Z) : Result string :=
  match ts with
  | [] => Throw (Error "get type failed ' + value")
  | t :: ts' =>
      if js_strict_eq (constant drv t) (JNum value) then Ok t
      else getVariableType_from ts' value
  end.

Definition getVariableType (value : Z) : Result string :=
  getVariableType_from types value.

Definition lift_result {S A} (r : Result A) : M S A :=
  match r with Ok a => ret a | Throw e => throw e end.

(** The attribute loop (lines 157-171), from index [i] on. *)
Fixpoint attributeLoop (vsrc fsrc : string) (program : jsval) (i : Z)
    (pending : list ActiveInfo) (attrs : JSObject) : M Heap JSObject :=
  match pending with
  | [] => ret attrs
  | a :: rest =>
      let* attribute := gl (invoke "getActiveAttrib" [program; JNum i] a) in
      let* ty := lift_result (getVariableType (ai_type attribute)) in
      let* pos := gl (invoke "getAttribLocation" [program; JStr (ai_name attribute)]
                             (attribLocation drv vsrc fsrc (ai_name attribute))) in
      let res := mkBinding ty attribute pos None in
      attributeLoop vsrc fsrc program (i + 1) rest (obj_set attrs (ai_name attribute) res)
  end.

(** [++this.textureCount] *)
Definition preIncrementTextureCount : M Heap Z :=
  let* self := this in
  let n := textureCount self + 1 in
  set_this (set_textureCount n) ;;
  ret n.

(** One turn of the uniform loop up to the assignment (lines 177-199):
    the name the binding goes under, and the binding. *)
Definition reflectUniform (vsrc fsrc : string) (program : jsval) (i : Z)
    (u : ActiveInfo) : M Heap (string * Binding) :=
  let* uniform := gl (invoke "getActiveUniform" [program; JNum i] u) in
  let* ty := lift_result (getVariableType (ai_type uniform)) in
  let* pos := gl (invoke "getUniformLocation" [program; JStr (ai_name uniform)]
                         (uniformLocation drv vsrc fsrc (ai_name uniform))) in
  let res := mkBinding ty uniform pos None in
  let bvt := baseVecType (parseType (type res)) in
  let* res := (if String.eqb bvt "2D" then
                 let* unit := preIncrementTextureCount in
                 ret (mkBinding ty uniform pos (Some unit))
               else ret res) in
  let* res := (if String.eqb bvt "CUB" then
                 let* unit := preIncrementTextureCount in
                 ret (mkBinding ty uniform pos (Some unit))
               else ret res) in
  ret (canonicalName (ai_name uniform), res).

(** The uniform loop (lines 175-201), from index [i] on. *)
Fixpoint uniformLoop (vsrc fsrc : string) (program : jsval) (i : Z)
    (pending : list ActiveInfo) (unifs : JSObject) : M Heap JSObject :=
  match pending with
  | [] => ret unifs
  | u :: rest =>
      let* entry := reflectUniform vsrc fsrc program i u in
      uniformLoop vsrc fsrc program (i + 1) rest (obj_set unifs (fst entry) (snd entry))
  end.

(** initProgram (lines 107-206) *)
Definition initProgram : M Heap () :=
  let* self := this in
  let fsrc := fShaderSource self in
  let vsrc := vShaderSource self in
  let* fShader := gl (loadShader (constant drv "FRAGMENT_SHADER") fsrc) in
  let* vShader := gl (loadShader (constant drv "VERTEX_SHADER") vsrc) in
  let* program := gl (create "createProgram" []) in
  gl (invoke "attachShader" [program; vShader] ()) ;;
  gl (invoke "attachShader" [program; fShader] ()) ;;
  gl (invoke "linkProgram" [program] ()) ;;
  let* linked := gl (invoke "getProgramParameter" [program; constant drv "LINK_STATUS"]
                            (linkStatus drv vsrc fsrc)) in
  if negb linked then
    let* log := gl (invoke "getProgramInfoLog" [program] (programInfoLog drv vsrc fsrc)) in
    throw (Error ("Unable to initialize the shader program: " +:+ log))
  else
    let* attributeCount :=
      gl (invoke "getProgramParameter" [program; constant drv "ACTIVE_ATTRIBUTES"]
                 (length (activeAttributes drv vsrc fsrc))) in
    let* attrs := attributeLoop vsrc fsrc program 0
                    (firstn attributeCount (activeAttributes drv vsrc fsrc))
                    emptyObject in
    let* uniformCount :=
      gl (invoke "getProgramParameter" [program; constant drv "ACTIVE_UNIFORMS"]
                 (length (activeUniforms drv vsrc fsrc))) in
    let* unifs := uniformLoop vsrc fsrc program 0
                    (firstn uniformCount (activeUniforms drv vsrc fsrc))
                    emptyObject in
    set_this (set_tables program attrs unifs).

(** [new Program({ fShaderSource, vShaderSource })] (lines 29-40): the
    field initialiser sets [textureCount] to 0 in every new instance; a
    [throw] of [initProgram] leaves the caller without any object. *)
Definition newProgram (fsrc vsrc : string) : M GLState Program :=
  fun st =>
    let self := mkProgram JUndefined None None 0 fsrc vsrc in
    match initProgram (self, st) with
    | (Ok _, (self', st')) => (Ok self', st')
    | (Throw e, (_, st')) => (Throw e, st')
    end.

(** destructor (lines 42-47) *)
Definition destructor : M Heap () :=
  let* self := this in
  gl (invoke "deleteProgram" [glProgram self] ()).

(** [gl[method](...args)]: a [TypeError] when the context has no such
    method. *)
Definition callMethod (method : string) (args : list jsval) : M Heap () :=
  if isFunction method then gl (invoke method args ())
  else throw (TypeError (method +:+ " is not a function")).

(** The switch of [uniform] (lines 58-88) on a binding. *)
Definition dispatchUniform (b : Binding) (value : jsval) : M Heap () :=
  let pt := parseType (type b) in
  let bvt := baseVecType pt in
  if String.eqb bvt "VEC" then
    let uniformMethodName :=
      "uniform" +:+ js_toString (vecSize pt)
        +:+ (if String.eqb (baseType pt) "FLOAT" then "f" else "i") +:+ "v" in
    callMethod uniformMethodName [position b; value]
  else if String.eqb bvt "MAT" then
    let uniformMethodName := "uniformMatrix" +:+ js_toString (vecSize pt) +:+ "fv" in
    callMethod uniformMethodName [position b; JBool false; value]
  else if String.eqb bvt "2D" then
    gl (invoke "activeTexture" [constant drv ("TEXTURE" +:+ js_toString (unit_val b))] ()) ;;
    gl (invoke "bindTexture" [constant drv "TEXTURE_2D"; value] ()) ;;
    gl (invoke "uniform1i" [position b; unit_val b] ())
  else if String.eqb bvt "CUB" then
    gl (invoke "activeTexture" [constant drv ("TEXTURE" +:+ js_toString (unit_val b))] ()) ;;
    gl (invoke "bindTexture" [constant drv "TEXTURE_CUBE_MAP"; value] ()) ;;
    gl (invoke "uniform1i" [position b; unit_val b] ())
  else throw (Error ("baseVecType invalid " +:+ bvt)).

(** What [parseType(type)] throws when the property read gave something
    truthy that is no binding: [type] is then [undefined] or a number, and
    [type.split] fails with a [TypeError] (the wording of the message is
    the engine's). *)
Definition splitFailure (p : PropertyValue) : JSError :=
  match pv_type p with
  | JUndefined => TypeError "Cannot read property 'split' of undefined"
  | _ => TypeError "type.split is not a function"
  end.

Definition readTable (table : option JSObject) (name : string)
  : M Heap PropertyValue :=
  match table with
  | Some o => ret (obj_get o name)
  | None => throw (TypeError ("Cannot read property '" +:+ name +:+ "' of undefined"))
  end.

(** uniform (lines 49-91) *)
Definition uniform (name : string) (value : jsval) : M Heap () :=
  let* self := this in
  let* entry := readTable (uniforms self) name in
  if pv_truthy entry then
    match entry with
    | PBinding b => dispatchUniform b value
    | _ => throw (splitFailure entry)
    end
  else ret ().

(** attribute (lines 93-105) *)
Definition attribute (name : string) (buffer stride offset : jsval) : M Heap () :=
  let* self := this in
  let* entry := readTable (attributes self) name in
  if pv_truthy entry then
    match entry with
    | PBinding b =>
        let pt := parseType (type b) in
        gl (invoke "bindBuffer" [constant drv "ARRAY_BUFFER"; buffer] ()) ;;
        gl (invoke "vertexAttribPointer"
                   [position b; vecSize pt; constant drv (baseType pt);
                    JBool false; stride; offset] ()) ;;
        gl (invoke "enableVertexAttribArray" [position b] ())
    | _ => throw (splitFailure entry)
    end
  else ret ().

End WithDriver.

(** ** A WebGL 1.0 context for running the model

    The constants have the values of the WebGL 1.0 specification; the
    compiler accepts every source but the ones listed as broken. *)

Module WebGL.

Definition TEXTURE0 : Z := 33984.

Definition constants : list (string * Z) :=
  [ ("FLOAT", 5126); ("FLOAT_VEC2", 35664); ("FLOAT_VEC3", 35665);
    ("FLOAT_VEC4", 35666); ("FLOAT_MAT2", 35674); ("FLOAT_MAT3", 35675);
    ("FLOAT_MAT4", 35676); ("INT", 5124); ("INT_VEC2", 35667);
    ("INT_VEC3", 35668); ("INT_VEC4", 35669); ("BOOL", 35670);
    ("BOOL_VEC2", 35671); ("BOOL_VEC3", 35672); ("BOOL_VEC4", 35673);
    ("SAMPLER_2D", 35678); ("SAMPLER_CUBE", 35680);
    ("TEXTURE_2D", 3553); ("TEXTURE_CUBE_MAP", 34067); ("ARRAY_BUFFER", 34962);
    ("FRAGMENT_SHADER", 35632); ("VERTEX_SHADER", 35633);
    ("COMPILE_STATUS", 35713); ("LINK_STATUS", 35714);
    ("ACTIVE_UNIFORMS", 35718); ("ACTIVE_ATTRIBUTES", 35721) ]
  ++ map (fun i : nat => ("TEXTURE" +:+ pretty (Z.of_nat i), TEXTURE0 + Z.of_nat i))
         (seq 0 32).

Fixpoint assoc (k : string) (l : list (string * Z)) : jsval :=
  match l with
  | [] => JUndefined
  | (k', v) :: l' => if String.eqb k k' then JNum v else assoc k l'
  end.

Definition enum (name : string) : jsval := assoc name constants.

(** A context whose compiler rejects exactly the sources in [broken],
    with [log] as diagnostic, and whose linker reports the given active
    variables for every pair of sources. *)
Definition context (broken : list (Z * string)) (log : string)
    (attrs unifs : list ActiveInfo) : Driver :=
  {| constant := enum;
     compileStatus := fun stage source =>
       negb (existsb (fun bs => js_strict_eq stage (JNum (fst bs))
                                && String.eqb source (snd bs)) broken);
     shaderInfoLog := fun _ _ => log;
     linkStatus := fun _ _ => true;
     programInfoLog := fun _ _ => "";
     activeAttributes := fun _ _ => attrs;
     activeUniforms := fun _ _ => unifs;
     attribLocation := fun _ _ name =>
       match list_find (fun a => ai_name a = name) attrs with
       | Some (i, _) => JNum (Z.of_nat i)
       | None => JNum (-1)
       end;
     uniformLocation := fun _ _ name =>
       match list_find (fun u => ai_name u = name) unifs with
       | Some (i, _) => JRef (100 + i)
       | None => JNull
       end |}.

Definition fresh : GLState := mkGLState 0 [].

End WebGL.

Definition demo : Driver :=
  WebGL.context [] ""
    [ mkActiveInfo "aPosition" 1 35665; mkActiveInfo "aUV" 1 35664 ]
    [ mkActiveInfo "uPMatrix" 1 35676; mkActiveInfo "uSampler" 1 35678;
      mkActiveInfo "uColors[0]" 4 35666; mkActiveInfo "uEnv" 1 35680 ].

(** ** The type descriptor of the specification

    The documented reading of a token: a base type, a category and an
    arity.  [spec_parseType] follows the prose of the specification;
    [descriptor] reads the record that [parseType] returns through the
    documented selector table. *)

Inductive Category : Type := SCALAR | VECTOR | MATRIX | SAMPLER_2D | SAMPLER_CUBE.

Record TypeDescriptor : Type := mkTypeDescriptor {
  td_baseType : string;
  td_category : Category;
  td_arity : option Z;
}.

Definition categoryOfSelector (sel : string) : option Category :=
  if String.eqb sel "VEC" then Some VECTOR
  else if String.eqb sel "MAT" then Some MATRIX
  else if String.eqb sel "2D" then Some SAMPLER_2D
  else if String.eqb sel "CUB" then Some SAMPLER_CUBE
  else None.

Definition trailingDigit (s : string) : option Z :=
  match String.get (String.length s - 1) s with
  | Some c => JSString.digit_of c
  | None => None
  end.

Definition hasSecondSegment (token : string) : bool :=
  (1 <? length (JSString.split "_" token))%nat.

Definition spec_parseType (token : string) : option TypeDescriptor :=
  let segs := JSString.split "_" token in
  let base := nth 0 segs EmptyString in
  if hasSecondSegment token then
    let second := nth 1 segs EmptyString in
    match categoryOfSelector (JSString.substr0 3 second) with
    | Some c => Some (mkTypeDescriptor base c (trailingDigit second))
    | None => None
    end
  else Some (mkTypeDescriptor base SCALAR (Some 1)).

Definition descriptor (pt : ParsedType) : option TypeDescriptor :=
  match categoryOfSelector (baseVecType pt) with
  | Some c =>
      Some (mkTypeDescriptor (baseType pt) c
              (match vecSize pt with JNum n => Some n | _ => None end))
  | None => None
  end.

Definition parseType_as_documented (token : string) : Prop :=
  descriptor (parseType token) = spec_parseType token.

(** ** Auxiliary definitions for the statements *)

Arguments getVariableType : simpl never.
Arguments parseType : simpl never.
Arguments canonicalName : simpl never.

Definition isSamplerType (ty : string) : bool :=
  String.eqb ty "SAMPLER_2D" || String.eqb ty "SAMPLER_CUBE".

Definition isSampler (b : Binding) : bool := isSamplerType (type b).

Definition logCall (c : GLCall) (st : GLState) : GLState :=
  mkGLState (next_handle st) (calls st ++ [c]).

(** The calls of [loadShader] up to the status query, for the shader object
    of handle [h]. *)
Definition compileCalls (drv : Driver) (stage : string) (h : nat) (source : string)
  : list GLCall :=
  [ Call "createShader" [constant drv stage];
    Call "shaderSource" [JRef h; JStr source];
    Call "compileShader" [JRef h];
    Call "getShaderParameter" [JRef h; constant drv "COMPILE_STATUS"] ].

(** The calls from [createProgram] to the link status query. *)
Definition linkCalls (drv : Driver) (h : nat) : list GLCall :=
  [ Call "createProgram" [];
    Call "attachShader" [JRef (S (S h)); JRef (S h)];
    Call "attachShader" [JRef (S (S h)); JRef h];
    Call "linkProgram" [JRef (S (S h))];
    Call "getProgramParameter" [JRef (S (S h)); constant drv "LINK_STATUS"] ].

Definition compileMessage (log : string) : JSError :=
  Error ("An error occurred compiling the shaders: " +:+ log).

(** The uniform table after the bindings [bs] have been assigned, in order,
    each under the canonical form of its reported name. *)
Definition storeUniforms (bs : list Binding) (o : JSObject) : JSObject :=
  fold_left (fun o b => obj_set o (canonicalName (ai_name (info b))) b) bs o.

Definition storeAttributes (bs : list Binding) (o : JSObject) : JSObject :=
  fold_left (fun o b => obj_set o (ai_name (info b)) b) bs o.

(** The binding [b] is the one the uniform loop builds for the active
    uniform [u], texture unit aside. *)
Definition reflectsUniform (drv : Driver) (vsrc fsrc : string)
    (u : ActiveInfo) (b : Binding) : Prop :=
  getVariableType drv (ai_type u) = Ok (type b)
  /\ info b = u
  /\ position b = uniformLocation drv vsrc fsrc (ai_name u).

Definition reflectsAttribute (drv : Driver) (vsrc fsrc : string)
    (a : ActiveInfo) (b : Binding) : Prop :=
  getVariableType drv (ai_type a) = Ok (type b)
  /\ info b = a
  /\ position b = attribLocation drv vsrc fsrc (ai_name a)
  /\ unit b = None.

(** The units [base+1 .. base+n], as the bindings hold them. *)
Definition unitsAfter (base : Z) (n : nat) : list (option Z) :=
  map (fun k => Some (base + Z.of_nat k)) (seq 1 n).

(** The program [p], built from the sources [fsrc] and [vsrc], numbers its
    samplers from 1: its uniform table holds, stored in enumeration order,
    one binding per active uniform; the bindings of the sampler tokens hold
    the units 1, 2, ..., N in that order, the others hold none, and the
    counter of [p] ends at N. *)
Definition numbersSamplersFrom1 (drv : Driver) (fsrc vsrc : string) (p : Program) : Prop :=
  exists bs : list Binding,
    let samplers := List.filter isSampler bs in
    Forall2 (reflectsUniform drv vsrc fsrc) (activeUniforms drv vsrc fsrc) bs
    /\ uniforms p = Some (storeUniforms bs emptyObject)
    /\ map unit samplers = map (fun k => Some (Z.of_nat k)) (seq 1 (length samplers))
    /\ Forall (fun b => unit b = None) (List.filter (fun b => negb (isSampler b)) bs)
    /\ textureCount p = Z.of_nat (length samplers).

(** ** The dispatch of the specification

    [spec_setUniform] follows the prose of the specification: a static
    choice of the GPU call by category, base type and arity. *)

Definition spec_vectorUpload (isFloat : bool) (arity : Z) : option string :=
  match arity, isFloat with
  | 1, true => Some "uniform1fv" | 1, false => Some "uniform1iv"
  | 2, true => Some "uniform2fv" | 2, false => Some "uniform2iv"
  | 3, true => Some "uniform3fv" | 3, false => Some "uniform3iv"
  | 4, true => Some "uniform4fv" | 4, false => Some "uniform4iv"
  | _, _ => None
  end.

Definition spec_matrixUpload (arity : Z) : option string :=
  match arity with
  | 2 => Some "uniformMatrix2fv"
  | 3 => Some "uniformMatrix3fv"
  | 4 => Some "uniformMatrix4fv"
  | _ => None
  end.

(** Activate the unit, bind the texture to the target on it, upload the
    unit index. *)
Definition spec_samplerCalls (drv : Driver) (target : string) (b : Binding)
    (texture : jsval) : option (list GLCall) :=
  match unit b with
  | Some k =>
      Some [ Call "activeTexture" [constant drv ("TEXTURE" +:+ pretty k)];
             Call "bindTexture" [constant drv target; texture];
             Call "uniform1i" [position b; JNum k] ]
  | None => None
  end.

Definition spec_setUniform (drv : Driver) (b : Binding) (value : jsval)
  : option (list GLCall) :=
  match descriptor (parseType (type b)) with
  | Some (mkTypeDescriptor base VECTOR (Some n)) =>
      match spec_vectorUpload (String.eqb base "FLOAT") n with
      | Some method => Some [Call method [position b; value]]
      | None => None
      end
  | Some (mkTypeDescriptor _ MATRIX (Some n)) =>
      match spec_matrixUpload n with
      | Some method => Some [Call method [position b; JBool false; value]]
      | None => None
      end
  | Some (mkTypeDescriptor _ SAMPLER_2D _) => spec_samplerCalls drv "TEXTURE_2D" b value
  | Some (mkTypeDescriptor _ SAMPLER_CUBE _) => spec_samplerCalls drv "TEXTURE_CUBE_MAP" b value
  | _ => None
  end.

(** The binding a table gives under [name], if the property read gives one. *)
Definition tableEntry (table : option JSObject) (name : string) : option Binding :=
  match table with
  | Some o => match obj_get o name with PBinding b => Some b | _ => None end
  | None => None
  end.

(** The context after the calls [cs]. *)
Definition afterCalls (cs : list GLCall) (st : GLState) : GLState :=
  mkGLState (next_handle st) (calls st ++ cs).

(** A property of every binding object reachable from a table. *)
Definition tableForall (P : Binding -> Prop) (o : JSObject) : Prop :=
  (forall k b, own o !! k = Some b -> P b) /\ (forall b, proto o = Some b -> P b).

(** A uniform binding as reflection builds it: a supported token, and a
    texture unit from 1 up exactly on the sampler tokens. *)
Definition uniformBindingOk (b : Binding) : Prop :=
  In (type b) types
  /\ if isSampler b then exists k, unit b = Some k /\ 1 <= k else unit b = None.

Definition attributeBindingOk (b : Binding) : Prop :=
  In (type b) types /\ unit b = None.

(** The three calls of [attribute] on a binding. *)
Definition attributeCalls (drv : Driver) (b : Binding) (buffer stride offset : jsval)
  : list GLCall :=
  let pt := parseType (type b) in
  [ Call "bindBuffer" [constant drv "ARRAY_BUFFER"; buffer];
    Call "vertexAttribPointer"
         [position b; vecSize pt; constant drv (baseType pt); JBool false; stride; offset];
    Call "enableVertexAttribArray" [position b] ].

Definition methodOf (c : GLCall) : string :=
  match c with Call method _ => method end.

(** The error of a failed construction determines the failing stage. *)
Definition errorIdentifiesStage (stageOf : JSError -> jsval) : Prop :=
  forall drv fsrc vsrc st e st',
    newProgram drv fsrc vsrc st = (Throw e, st') ->
    (compileStatus drv (constant drv "FRAGMENT_SHADER") fsrc = false ->
     stageOf e = constant drv "FRAGMENT_SHADER")
    /\ (compileStatus drv (constant drv "FRAGMENT_SHADER") fsrc = true ->
        compileStatus drv (constant drv "VERTEX_SHADER") vsrc = false ->
        stageOf e = constant drv "VERTEX_SHADER").

(** The type value [v] is none of the seventeen constants of the table. *)
Definition unsupportedToken (drv : Driver) (v : Z) : Prop :=
  Forall (fun t => constant drv t <> JNum v) types.

Fixpoint hasChar (c : ascii) (s : string) : bool :=
  match s with
  | EmptyString => false
  | String c' rest => Ascii.eqb c c' || hasChar c rest
  end.

(** No own property is called "__proto__": the assignment never creates one. *)
Definition noOwnProto (o : JSObject) : Prop := own o !! "__proto__" = None.

(** The claim of C4 for one reported uniform: its binding is stored under
    the reported name without the suffix "[0]". *)
Definition storedUnderStrippedName (p : Program) (u : ActiveInfo) : Prop :=
  forall foo, ai_name u = foo +:+ "[0]" ->
              exists b, tableEntry (uniforms p) foo = Some b /\ info b = u.

(** The type value [v] is the constant of one of the seventeen tokens. *)
Definition supportedToken (drv : Driver) (v : Z) : Prop :=
  exists t, In t types /\ constant drv t = JNum v.

(** The methods [initProgram] invokes on the context. *)
Definition constructionMethods : list string :=
  [ "createShader"; "shaderSource"; "compileShader"; "getShaderParameter";
    "getShaderInfoLog"; "createProgram"; "attachShader"; "linkProgram";
    "getProgramParameter"; "getProgramInfoLog"; "getActiveAttrib";
    "getAttribLocation"; "getActiveUniform"; "getUniformLocation" ].

(** The number of sampler uniforms among [us], by their type tokens. *)
Definition samplerCount (drv : Driver) (us : list ActiveInfo) : nat :=
  length (List.filter
            (fun u => match getVariableType drv (ai_type u) with
                      | Ok t => isSamplerType t
                      | Throw _ => false
                      end) us).

(** * Properties *)

(** ** parseType *)

Example parseType_FLOAT_VEC3 :
  parseType "FLOAT_VEC3" = mkParsedType "FLOAT" "VEC3" "VEC" (JNum 3).
Proof. reflexivity. Qed.

Example parseType_SAMPLER_CUBE :
  parseType "SAMPLER_CUBE" = mkParsedType "SAMPLER" "CUBE" "CUB" JNaN.
Proof. reflexivity. Qed.

Example parseType_FLOAT :
  parseType "FLOAT" = mkParsedType "FLOAT" "VEC1" "VEC" (JNum 1).
Proof. reflexivity. Qed.

(** C2, as stated, fails on the bare scalars: the token FLOAT is in the
    supported enumeration and has no second segment, and [parseType] gives
    it the selector VEC (category VECTOR), not SCALAR. *)
Lemma parseType_scalar_is_not_SCALAR :
  In "FLOAT" types
  /\ hasSecondSegment "FLOAT" = false
  /\ descriptor (parseType "FLOAT") = Some (mkTypeDescriptor "FLOAT" VECTOR (Some 1))
  /\ ~ parseType_as_documented "FLOAT".
Proof.
  split; [simpl; tauto|]. split; [reflexivity|]. split; [reflexivity|].
  unfold parseType_as_documented. vm_compute. discriminate.
Qed.

(** C2, amended: on every supported token the first segment is the base
    type; with a second segment, category and arity are the documented
    ones (selector table, trailing digit); without one, [parseType] takes
    "VEC1" as second segment, so a bare scalar is a VECTOR of arity 1. *)
Theorem parseType_supported_tokens :
  Forall (fun token =>
            baseType (parseType token) = nth 0 (JSString.split "_" token) EmptyString
            /\ descriptor (parseType token)
               = if hasSecondSegment token then spec_parseType token
                 else Some (mkTypeDescriptor token VECTOR (Some 1)))
         types.
Proof.
  unfold types. repeat (constructor; [split; reflexivity|]). constructor.
Qed.

(** ** Reflection *)

Section Reflection.

Context (drv : Driver).

Lemma getVariableType_from_ok ts v t :
  getVariableType_from drv ts v = Ok t ->
  In t ts /\ js_strict_eq (constant drv t) (JNum v) = true.
Proof.
  induction ts as [|t0 ts IH]; simpl; [discriminate|].
  destruct (js_strict_eq (constant drv t0) (JNum v)) eqn:E.
  - intros [= <-]. split; [left; reflexivity|exact E].
  - intros H. destruct (IH H) as [Hin Heq]. split; [right; exact Hin|exact Heq].
Qed.

Lemma getVariableType_from_throw ts v e :
  getVariableType_from drv ts v = Throw e ->
  e = Error "get type failed ' + value"
  /\ Forall (fun t => js_strict_eq (constant drv t) (JNum v) = false) ts.
Proof.
  induction ts as [|t0 ts IH]; simpl.
  - intros [= <-]. split; [reflexivity|constructor].
  - destruct (js_strict_eq (constant drv t0) (JNum v)) eqn:E; [discriminate|].
    intros H. destruct (IH H) as [He Hall]. split; [exact He|].
    constructor; assumption.
Qed.

Lemma getVariableType_in_types v t :
  getVariableType drv v = Ok t -> In t types.
Proof. intros H. apply (getVariableType_from_ok _ _ _ H). Qed.

(** On a supported token the two tests of the uniform loop on
    [baseVecType] single out the two sampler tokens. *)
Lemma sampler_tests t :
  In t types ->
  String.eqb (baseVecType (parseType t)) "2D" = String.eqb t "SAMPLER_2D"
  /\ String.eqb (baseVecType (parseType t)) "CUB" = String.eqb t "SAMPLER_CUBE".
Proof.
  unfold types. simpl.
  intros H; repeat (destruct H as [<-|H]; [split; reflexivity|]); destruct H.
Qed.

(** One turn of the uniform loop, in closed form. *)
Lemma reflectUniform_run vsrc fsrc program i u self st :
  reflectUniform drv vsrc fsrc program i u (self, st)
  = let st1 := logCall (Call "getActiveUniform" [program; JNum i]) st in
    match getVariableType drv (ai_type u) with
    | Throw e => (Throw e, (self, st1))
    | Ok ty =>
        let st2 := logCall (Call "getUniformLocation" [program; JStr (ai_name u)]) st1 in
        let pos := uniformLocation drv vsrc fsrc (ai_name u) in
        let n := textureCount self + 1 in
        if isSamplerType ty then
          (Ok (canonicalName (ai_name u), mkBinding ty u pos (Some n)),
           (set_textureCount n self, st2))
        else
          (Ok (canonicalName (ai_name u), mkBinding ty u pos None), (self, st2))
    end.
Proof.
  unfold reflectUniform, bind, gl, invoke, lift_result; cbn.
  destruct (getVariableType drv (ai_type u)) as [ty|e] eqn:E; cbn; [|reflexivity].
  destruct (sampler_tests ty (getVariableType_in_types _ _ E)) as [H2D HCUB].
  rewrite H2D, HCUB. unfold isSamplerType.
  destruct (String.eqb ty "SAMPLER_2D") eqn:E1.
  - apply String.eqb_eq in E1. subst ty. reflexivity.
  - destruct (String.eqb ty "SAMPLER_CUBE") eqn:E2; reflexivity.
Qed.

End Reflection.

Section Construction.

Context (drv : Driver).

(** [initProgram] in closed form: the three guards, then the two loops. *)
Lemma initProgram_run self st :
  let fsrc := fShaderSource self in
  let vsrc := vShaderSource self in
  let h := next_handle st in
  let FS := constant drv "FRAGMENT_SHADER" in
  let VS := constant drv "VERTEX_SHADER" in
  let program := JRef (S (S h)) in
  let c1 := (calls st ++ compileCalls drv "FRAGMENT_SHADER" h fsrc)%list in
  let c2 := (c1 ++ compileCalls drv "VERTEX_SHADER" (S h) vsrc)%list in
  let c3 := (c2 ++ linkCalls drv h)%list in
  initProgram drv (self, st)
  = if negb (compileStatus drv FS fsrc) then
      (Throw (compileMessage (shaderInfoLog drv FS fsrc)),
       (self, mkGLState (S h) (c1 ++ [Call "getShaderInfoLog" [JRef h]])))
    else if negb (compileStatus drv VS vsrc) then
      (Throw (compileMessage (shaderInfoLog drv VS vsrc)),
       (self, mkGLState (S (S h)) (c2 ++ [Call "getShaderInfoLog" [JRef (S h)]])))
    else if negb (linkStatus drv vsrc fsrc) then
      (Throw (Error ("Unable to initialize the shader program: "
                     +:+ programInfoLog drv vsrc fsrc)),
       (self, mkGLState (S (S (S h))) (c3 ++ [Call "getProgramInfoLog" [program]])))
    else
      match attributeLoop drv vsrc fsrc program 0 (activeAttributes drv vsrc fsrc)
              emptyObject
              (self, mkGLState (S (S (S h)))
                       (c3 ++ [Call "getProgramParameter"
                                 [program; constant drv "ACTIVE_ATTRIBUTES"]]))
      with
      | (Throw e, heap) => (Throw e, heap)
      | (Ok attrs, (self1, st1)) =>
          match uniformLoop drv vsrc fsrc program 0 (activeUniforms drv vsrc fsrc)
                  emptyObject
                  (self1, logCall (Call "getProgramParameter"
                                     [program; constant drv "ACTIVE_UNIFORMS"]) st1)
          with
          | (Throw e, heap) => (Throw e, heap)
          | (Ok unifs, (self2, st2)) =>
              (Ok (), (set_tables program attrs unifs self2, st2))
          end
      end.
Proof.
  intros fsrc vsrc h FS VS program c1 c2 c3.
  unfold initProgram, loadShader, bind, this, gl, invoke, create, throw, ret; cbn.
  fold fsrc vsrc h FS VS.
  subst c1 c2 c3 program. unfold compileMessage, compileCalls, linkCalls.
  fold FS VS.
  destruct (compileStatus drv FS fsrc); cbn;
    [|rewrite <- !app_assoc; reflexivity].
  destruct (compileStatus drv VS vsrc); cbn;
    [|rewrite <- !app_assoc; reflexivity].
  destruct (linkStatus drv vsrc fsrc); cbn;
    [|rewrite <- !app_assoc; reflexivity].
  rewrite !firstn_all, <- !app_assoc. cbn [app].
  destruct (attributeLoop _ _ _ _ _ _ _ _) as [[attrs|e] [self1 st1]]; [|reflexivity].
  unfold logCall, set_this; cbn.
  destruct (uniformLoop _ _ _ _ _ _ _ _) as [[unifs|e] [self2 st2]]; reflexivity.
Qed.

Lemma attributeLoop_cons vsrc fsrc program i a rest attrs self st :
  attributeLoop drv vsrc fsrc program i (a :: rest) attrs (self, st)
  = let st1 := logCall (Call "getActiveAttrib" [program; JNum i]) st in
    match getVariableType drv (ai_type a) with
    | Throw e => (Throw e, (self, st1))
    | Ok ty =>
        let st2 := logCall (Call "getAttribLocation" [program; JStr (ai_name a)]) st1 in
        attributeLoop drv vsrc fsrc program (i + 1) rest
          (obj_set attrs (ai_name a)
             (mkBinding ty a (attribLocation drv vsrc fsrc (ai_name a)) None))
          (self, st2)
    end.
Proof.
  cbn [attributeLoop]. unfold bind, gl, invoke, lift_result; cbn.
  destruct (getVariableType drv (ai_type a)); reflexivity.
Qed.

Lemma uniformLoop_cons vsrc fsrc program i u rest unifs self st :
  uniformLoop drv vsrc fsrc program i (u :: rest) unifs (self, st)
  = match reflectUniform drv vsrc fsrc program i u (self, st) with
    | (Throw e, heap) => (Throw e, heap)
    | (Ok entry, heap) =>
        uniformLoop drv vsrc fsrc program (i + 1) rest
          (obj_set unifs (fst entry) (snd entry)) heap
    end.
Proof.
  cbn [uniformLoop]. unfold bind.
  destruct (reflectUniform _ _ _ _ _ _ _) as [[entry|e] heap]; reflexivity.
Qed.

(** The attribute loop never writes to [this]. *)
Lemma attributeLoop_this vsrc fsrc program pending :
  forall i attrs self st,
    fst (snd (attributeLoop drv vsrc fsrc program i pending attrs (self, st))) = self.
Proof.
  induction pending as [|a rest IH]; intros i attrs self st; [reflexivity|].
  rewrite attributeLoop_cons. cbn zeta.
  destruct (getVariableType drv (ai_type a)); [apply IH|reflexivity].
Qed.

(** The only error of either loop is the one of [getVariableType]. *)
Lemma attributeLoop_throw vsrc fsrc program pending :
  forall i attrs heap e heap',
    attributeLoop drv vsrc fsrc program i pending attrs heap = (Throw e, heap') ->
    e = Error "get type failed ' + value".
Proof.
  induction pending as [|a rest IH]; intros i attrs [self st] e heap'.
  - discriminate.
  - rewrite attributeLoop_cons. cbn zeta.
    destruct (getVariableType drv (ai_type a)) as [ty|e0] eqn:E.
    + apply IH.
    + intros [= <- _]. apply (getVariableType_from_throw _ _ _ _ E).
Qed.

Lemma uniformLoop_throw vsrc fsrc program pending :
  forall i unifs heap e heap',
    uniformLoop drv vsrc fsrc program i pending unifs heap = (Throw e, heap') ->
    e = Error "get type failed ' + value".
Proof.
  induction pending as [|u rest IH]; intros i unifs [self st] e heap'.
  - discriminate.
  - rewrite uniformLoop_cons, reflectUniform_run. cbn zeta.
    destruct (getVariableType drv (ai_type u)) as [ty|e0] eqn:E.
    + destruct (isSamplerType ty); apply IH.
    + intros [= <- _]. apply (getVariableType_from_throw _ _ _ _ E).
Qed.

Lemma unitsAfter_S base n :
  unitsAfter base (S n) = Some (base + 1) :: unitsAfter (base + 1) n.
Proof.
  unfold unitsAfter. cbn [seq map]. f_equal.
  rewrite <- seq_shift, map_map. apply map_ext. intros k. f_equal. lia.
Qed.

Lemma set_textureCount_id self : set_textureCount (textureCount self) self = self.
Proof. destruct self; reflexivity. Qed.

(** A successful uniform loop: one binding per pending uniform, stored in
    order; the samplers among them hold the next units of the counter,
    the others none; [this] changes by the counter only. *)
Lemma uniformLoop_ok vsrc fsrc program pending :
  forall i unifs self st unifs' self' st',
    uniformLoop drv vsrc fsrc program i pending unifs (self, st)
    = (Ok unifs', (self', st')) ->
    exists bs,
      Forall2 (reflectsUniform drv vsrc fsrc) pending bs
      /\ unifs' = storeUniforms bs unifs
      /\ map unit (List.filter isSampler bs)
         = unitsAfter (textureCount self) (length (List.filter isSampler bs))
      /\ Forall (fun b => unit b = None) (List.filter (fun b => negb (isSampler b)) bs)
      /\ self' = set_textureCount
                   (textureCount self + Z.of_nat (length (List.filter isSampler bs)))
                   self.
Proof.
  induction pending as [|u rest IH]; intros i unifs self st unifs' self' st'.
  - intros [= <- <- _]. exists []. cbn.
    repeat split; try constructor.
    rewrite Z.add_0_r. symmetry. apply set_textureCount_id.
  - rewrite uniformLoop_cons, reflectUniform_run. cbn zeta.
    destruct (getVariableType drv (ai_type u)) as [ty|e] eqn:E; [|discriminate].
    set (pos := uniformLocation drv vsrc fsrc (ai_name u)).
    destruct (isSamplerType ty) eqn:Es; cbn [fst snd]; intros H;
      destruct (IH _ _ _ _ _ _ _ H) as (bs & Hrefl & Hstore & Hunits & Hnone & Hself).
    + exists (mkBinding ty u pos (Some (textureCount self + 1)) :: bs).
      assert (Hs : isSampler (mkBinding ty u pos (Some (textureCount self + 1))) = true)
        by exact Es.
      cbn [List.filter]. rewrite Hs. cbn [negb length map unit].
      split; [constructor; [split; [exact E|split; reflexivity]|exact Hrefl]|].
      split; [exact Hstore|].
      split; [rewrite unitsAfter_S; f_equal; exact Hunits|].
      split; [exact Hnone|].
      rewrite Hself. unfold set_textureCount.
      cbn [textureCount glProgram uniforms attributes fShaderSource vShaderSource].
      f_equal. lia.
    + exists (mkBinding ty u pos None :: bs).
      assert (Hs : isSampler (mkBinding ty u pos None) = false) by exact Es.
      cbn [List.filter]. rewrite Hs. cbn [negb].
      split; [constructor; [split; [exact E|split; reflexivity]|exact Hrefl]|].
      split; [exact Hstore|].
      split; [exact Hunits|].
      split; [constructor; [reflexivity|exact Hnone]|exact Hself].
Qed.

Lemma attributeLoop_ok vsrc fsrc program pending :
  forall i attrs heap attrs' heap',
    attributeLoop drv vsrc fsrc program i pending attrs heap = (Ok attrs', heap') ->
    exists bs,
      Forall2 (reflectsAttribute drv vsrc fsrc) pending bs
      /\ attrs' = storeAttributes bs attrs.
Proof.
  induction pending as [|a rest IH]; intros i attrs [self st] attrs' heap'.
  - intros [= <- _]. exists []. split; [constructor|reflexivity].
  - rewrite attributeLoop_cons. cbn zeta.
    destruct (getVariableType drv (ai_type a)) as [ty|e] eqn:E; [|discriminate].
    intros H. destruct (IH _ _ _ _ _ H) as (bs & Hrefl & Hstore).
    exists (mkBinding ty a (attribLocation drv vsrc fsrc (ai_name a)) None :: bs).
    split; [constructor; [repeat split; exact E|exact Hrefl]|exact Hstore].
Qed.

(** What a successful construction returns. *)
Lemma newProgram_ok fsrc vsrc st p st' :
  newProgram drv fsrc vsrc st = (Ok p, st') ->
  exists abs ubs,
    Forall2 (reflectsAttribute drv vsrc fsrc) (activeAttributes drv vsrc fsrc) abs
    /\ Forall2 (reflectsUniform drv vsrc fsrc) (activeUniforms drv vsrc fsrc) ubs
    /\ map unit (List.filter isSampler ubs)
       = unitsAfter 0 (length (List.filter isSampler ubs))
    /\ Forall (fun b => unit b = None) (List.filter (fun b => negb (isSampler b)) ubs)
    /\ p = mkProgram (JRef (S (S (next_handle st))))
                     (Some (storeUniforms ubs emptyObject))
                     (Some (storeAttributes abs emptyObject))
                     (Z.of_nat (length (List.filter isSampler ubs)))
                     fsrc vsrc.
Proof.
  unfold newProgram. rewrite initProgram_run. cbn zeta.
  cbn [fShaderSource vShaderSource].
  destruct (negb (compileStatus drv _ fsrc)); [discriminate|].
  destruct (negb (compileStatus drv _ vsrc)); [discriminate|].
  destruct (negb (linkStatus drv vsrc fsrc)); [discriminate|].
  match goal with
  | |- context [attributeLoop ?d ?v ?f ?pr ?i ?l ?o (?self, ?s)] =>
      pose proof (attributeLoop_this v f pr l i o self s) as Hthis;
      destruct (attributeLoop d v f pr i l o (self, s)) as [[attrs|e] [self1 st1]] eqn:EA
  end; [|discriminate].
  cbn [fst snd] in Hthis. subst self1.
  destruct (uniformLoop _ _ _ _ _ _ _ _) as [[unifs|e] [self2 st2]] eqn:EU; [|discriminate].
  intros [= <- <-].
  destruct (attributeLoop_ok _ _ _ _ _ _ _ _ _ EA) as (abs & HA & ->).
  destruct (uniformLoop_ok _ _ _ _ _ _ _ _ _ _ _ EU) as (ubs & HU & -> & Hunits & Hnone & ->).
  exists abs, ubs. cbn [textureCount] in *.
  repeat split; try assumption.
Qed.

End Construction.

(** ** Texture units *)

(** C1: every constructed program numbers its N sampler uniforms 1..N in
    enumeration order, by pre-incrementing a counter that starts at 0 in
    each instance; a second program constructed afterwards on the same
    context starts at 1 again. *)
Theorem sampler_units_are_1_to_N drv fsrc vsrc st p st' :
  newProgram drv fsrc vsrc st = (Ok p, st') ->
  numbersSamplersFrom1 drv fsrc vsrc p
  /\ forall fsrc2 vsrc2 p2 st2,
       newProgram drv fsrc2 vsrc2 st' = (Ok p2, st2) ->
       numbersSamplersFrom1 drv fsrc2 vsrc2 p2.
Proof.
  assert (one : forall f v s q s',
             newProgram drv f v s = (Ok q, s') -> numbersSamplersFrom1 drv f v q).
  { intros f v s q s' H.
    destruct (newProgram_ok drv _ _ _ _ _ H) as (abs & ubs & _ & HU & Hunits & Hnone & ->).
    exists ubs. cbn zeta. cbn [uniforms textureCount].
    repeat split; assumption. }
  intros H. split; [exact (one _ _ _ _ _ H)|].
  intros fsrc2 vsrc2 p2 st2 H2. exact (one _ _ _ _ _ H2).
Qed.

(** The demonstration program has two samplers, [uSampler] (2D) and [uEnv]
    (cube), the second and fourth of its four uniforms. *)
Lemma sampler_units_are_1_to_N_demo :
  exists p st',
    newProgram demo "f" "v" WebGL.fresh = (Ok p, st')
    /\ numbersSamplersFrom1 demo "f" "v" p.
Proof.
  eexists _, _. split; [vm_compute; reflexivity|].
  refine (proj1 (sampler_units_are_1_to_N demo "f" "v" WebGL.fresh _ _ _)).
  vm_compute. reflexivity.
Defined.

(** ** Tables built by reflection *)

Lemma tableForall_empty P : tableForall P emptyObject.
Proof.
  split; cbn; [intros k b H; rewrite lookup_empty in H|intros b H]; discriminate.
Qed.

Lemma tableForall_set P o k b :
  tableForall P o -> P b -> tableForall P (obj_set o k b).
Proof.
  intros [Hown Hproto] Hb. unfold obj_set.
  destruct (String.eqb k "__proto__"); split; cbn.
  - exact Hown.
  - intros b' [= <-]. exact Hb.
  - intros k' b'. destruct (decide (k = k')) as [->|Hne].
    + rewrite lookup_insert_eq. intros [= <-]. exact Hb.
    + rewrite lookup_insert_ne by exact Hne. apply Hown.
  - exact Hproto.
Qed.

Lemma tableForall_store P (name : Binding -> string) bs :
  Forall P bs ->
  forall o, tableForall P o ->
            tableForall P (fold_left (fun o b => obj_set o (name b) b) bs o).
Proof.
  induction 1 as [|b bs Hb _ IH]; intros o Ho; cbn; [exact Ho|].
  apply IH, tableForall_set; assumption.
Qed.

Lemma tableEntry_forall P o name b :
  tableForall P o -> tableEntry (Some o) name = Some b -> P b.
Proof.
  intros [Hown Hproto]. unfold tableEntry, obj_get.
  destruct (own o !! name) as [b0|] eqn:E.
  - intros [= <-]. exact (Hown _ _ E).
  - destruct (proto o) as [b0|] eqn:Ep.
    + destruct (String.eqb name "__proto__").
      * intros [= <-]. exact (Hproto _ eq_refl).
      * unfold objectPrototype_get.
        repeat (match goal with |- context [if ?c then _ else _] => destruct c end;
                try discriminate).
    + unfold objectPrototype_get.
      destruct (bool_decide _); discriminate.
Qed.

Lemma units_from_1 (bs : list Binding) base n :
  0 <= base ->
  map unit bs = unitsAfter base n ->
  Forall (fun b => exists k, unit b = Some k /\ 1 <= k) bs.
Proof.
  unfold unitsAfter. intros Hbase H.
  apply Forall_forall. intros b Hb. apply list_elem_of_In in Hb.
  apply (in_map unit) in Hb. rewrite H in Hb.
  apply in_map_iff in Hb. destruct Hb as (k & Hk & Hin).
  apply in_seq in Hin. exists (base + Z.of_nat k). split; [symmetry; exact Hk|lia].
Qed.

Lemma Forall2_right {A B} (R : A -> B -> Prop) (P : B -> Prop) l k :
  (forall a b, R a b -> P b) -> Forall2 R l k -> Forall P k.
Proof. intros HRP. induction 1; constructor; eauto. Qed.

Lemma uniformBindings_ok (bs : list Binding) n :
  Forall (fun b => In (type b) types) bs ->
  map unit (List.filter isSampler bs) = unitsAfter 0 n ->
  Forall (fun b => unit b = None) (List.filter (fun b => negb (isSampler b)) bs) ->
  Forall uniformBindingOk bs.
Proof.
  intros Hty Hunits Hnone.
  apply units_from_1 in Hunits; [|lia].
  rewrite Forall_forall in Hty, Hunits, Hnone. apply Forall_forall.
  intros b Hb. split; [apply Hty, Hb|].
  apply list_elem_of_In in Hb.
  destruct (isSampler b) eqn:Es.
  - apply Hunits, list_elem_of_In, filter_In. split; assumption.
  - apply Hnone, list_elem_of_In, filter_In. split; [assumption|]. rewrite Es. reflexivity.
Qed.

(** The tables of a constructed program hold only bindings as reflection
    builds them. *)
Lemma newProgram_tables drv fsrc vsrc st p st' :
  newProgram drv fsrc vsrc st = (Ok p, st') ->
  exists uo ao,
    uniforms p = Some uo /\ attributes p = Some ao
    /\ tableForall uniformBindingOk uo /\ tableForall attributeBindingOk ao.
Proof.
  intros H.
  destruct (newProgram_ok drv _ _ _ _ _ H) as (abs & ubs & HA & HU & Hunits & Hnone & ->).
  eexists _, _. split; [reflexivity|]. split; [reflexivity|]. split.
  - apply tableForall_store; [|apply tableForall_empty].
    eapply uniformBindings_ok; [|exact Hunits|exact Hnone].
    eapply Forall2_right; [|exact HU].
    intros u b (Hty & _). exact (getVariableType_in_types _ _ _ Hty).
  - apply tableForall_store; [|apply tableForall_empty].
    eapply Forall2_right; [|exact HA].
    intros a b (Hty & _ & _ & Hunit).
    split; [exact (getVariableType_in_types _ _ _ Hty)|exact Hunit].
Qed.

(** ** The uniform dispatcher *)

(** Evaluate the closed term [t] wherever it occurs in the goal. *)
Ltac crunch t := let v := eval vm_compute in t in change t with v.

(** Run a dispatcher on a binding whose token is a literal: evaluate
    [parseType], the tests on its result and the method lookup, then
    collect the recorded calls. *)
Ltac run_dispatch :=
  repeat match goal with |- context [parseType ?t] => crunch (parseType t) end;
  cbn [baseVecType baseType vecSize js_toString type position unit_val unit];
  repeat match goal with |- context [String.eqb ?a ?b] => crunch (String.eqb a b) end;
  cbn iota;
  repeat match goal with |- context [isFunction ?m] => crunch (isFunction m) end;
  cbn iota;
  unfold bind, gl, invoke, afterCalls;
  cbn [fst snd calls next_handle];
  rewrite <- ?app_assoc; reflexivity.

(** On a binding as reflection builds it, the string-built dispatch of the
    source issues exactly the calls of the specification. *)
Lemma dispatchUniform_refines drv b value self st :
  uniformBindingOk b ->
  exists cs,
    spec_setUniform drv b value = Some cs
    /\ dispatchUniform drv b value (self, st) = (Ok (), (self, afterCalls cs st)).
Proof.
  destruct b as [ty inf pos un]. unfold uniformBindingOk, isSampler.
  cbn [type unit]. intros [Hty Hunit]. unfold types in Hty. cbn [In] in Hty.
  repeat (destruct Hty as [<-|Hty];
          [try (vm_compute in Hunit; destruct Hunit as (k & -> & _));
           eexists; split; [reflexivity|];
           unfold dispatchUniform, callMethod; run_dispatch|]).
  destruct Hty.
Qed.

Lemma tableEntry_read table name b :
  tableEntry table name = Some b ->
  exists o, table = Some o /\ obj_get o name = PBinding b.
Proof.
  unfold tableEntry. destruct table as [o|]; [|discriminate].
  destruct (obj_get o name) eqn:E; try discriminate.
  intros [= <-]. exists o. split; [reflexivity|exact E].
Qed.

(** [uniform] on a name under which the table gives a binding is the
    dispatch on that binding. *)
Lemma uniform_on_entry drv self st name value b :
  tableEntry (uniforms self) name = Some b ->
  uniform drv name value (self, st) = dispatchUniform drv b value (self, st).
Proof.
  intros H. destruct (tableEntry_read _ _ _ H) as (o & Ho & Hget).
  unfold uniform, bind, this, readTable; cbn [fst snd].
  rewrite Ho. unfold ret. rewrite Hget. reflexivity.
Qed.

Lemma attribute_on_entry drv self st name buffer stride offset b :
  tableEntry (attributes self) name = Some b ->
  attribute drv name buffer stride offset (self, st)
  = (Ok (), (self, afterCalls (attributeCalls drv b buffer stride offset) st)).
Proof.
  intros H. destruct (tableEntry_read _ _ _ H) as (o & Ho & Hget).
  unfold attribute, bind, this, readTable; cbn [fst snd].
  rewrite Ho. unfold ret. rewrite Hget. cbn [pv_truthy].
  unfold gl, invoke, afterCalls, attributeCalls; cbn [fst snd calls next_handle].
  rewrite <- !app_assoc. reflexivity.
Qed.

(** A supported token never reaches the default branch, and the method
    name built from it exists. *)
Lemma dispatchUniform_returns drv b value self st :
  In (type b) types ->
  exists cs, dispatchUniform drv b value (self, st) = (Ok (), (self, afterCalls cs st)).
Proof.
  destruct b as [ty inf pos un]. cbn [type]. intros Hty.
  unfold types in Hty. cbn [In] in Hty.
  repeat (destruct Hty as [<-|Hty];
          [unfold dispatchUniform, callMethod; eexists; run_dispatch|]).
  destruct Hty.
Qed.

(** In a WebGL context the constant read for a unit from 0 to 31 is
    TEXTURE0 plus the unit; the context has no constant for higher units. *)
Lemma WebGL_texture_constants :
  Forall (fun k : nat =>
            WebGL.enum ("TEXTURE" +:+ pretty (Z.of_nat k))
            = JNum (WebGL.TEXTURE0 + Z.of_nat k))
         (seq 0 32)
  /\ WebGL.enum "TEXTURE32" = JUndefined.
Proof.
  split; [|reflexivity].
  cbn [seq]. repeat (constructor; [vm_compute; reflexivity|]). constructor.
Qed.

(** C3: on a name under which the uniform table of a constructed program
    holds a binding, [uniform] issues exactly the calls the specification
    gives for the binding's category: the vector upload chosen by base type
    (float "f", otherwise "i") and arity, with (location, value); the matrix
    upload chosen by arity, with (location, false, value); for the two
    sampler categories [activeTexture] on the binding's unit, [bindTexture]
    of the value to the 2D or cube-map target, and [uniform1i] of the unit
    index.  [this] is unchanged. *)
Theorem uniform_dispatches_by_category drv fsrc vsrc st0 p st1 name value b st :
  newProgram drv fsrc vsrc st0 = (Ok p, st1) ->
  tableEntry (uniforms p) name = Some b ->
  exists cs,
    spec_setUniform drv b value = Some cs
    /\ uniform drv name value (p, st) = (Ok (), (p, afterCalls cs st)).
Proof.
  intros Hnew Hentry.
  destruct (newProgram_tables _ _ _ _ _ _ Hnew) as (uo & ao & Hu & _ & Huo & _).
  rewrite (uniform_on_entry _ _ _ _ _ _ Hentry).
  apply dispatchUniform_refines.
  rewrite Hu in Hentry. exact (tableEntry_forall _ _ _ _ Huo Hentry).
Qed.

(** On the demonstration program, the cube sampler [uEnv] holds unit 2. *)
Lemma uniform_dispatches_by_category_demo :
  exists p st1 b,
    newProgram demo "f" "v" WebGL.fresh = (Ok p, st1)
    /\ tableEntry (uniforms p) "uEnv" = Some b
    /\ exists cs,
         spec_setUniform demo b (JRef 50) = Some cs
         /\ uniform demo "uEnv" (JRef 50) (p, st1) = (Ok (), (p, afterCalls cs st1)).
Proof.
  eexists _, _, _. split; [vm_compute; reflexivity|]. split; [vm_compute; reflexivity|].
  refine (uniform_dispatches_by_category demo "f" "v" WebGL.fresh _ _ "uEnv" _ _ _ _ _);
    vm_compute; reflexivity.
Defined.

(** ** The attribute binder *)

(** C8: on a name under which the attribute table holds a binding,
    [attribute] binds the buffer to ARRAY_BUFFER, then calls
    [vertexAttribPointer] at the binding's location with (arity, base type
    constant, false, stride, offset), then enables the location; nothing
    else is called and [this] is unchanged. *)
Theorem attribute_binds_describes_enables drv self st name buffer stride offset b :
  tableEntry (attributes self) name = Some b ->
  attribute drv name buffer stride offset (self, st)
  = (Ok (),
     (self,
      afterCalls
        [ Call "bindBuffer" [constant drv "ARRAY_BUFFER"; buffer];
          Call "vertexAttribPointer"
               [position b; vecSize (parseType (type b));
                constant drv (baseType (parseType (type b)));
                JBool false; stride; offset];
          Call "enableVertexAttribArray" [position b] ]
        st)).
Proof. intros H. exact (attribute_on_entry drv self st name buffer stride offset b H). Qed.

(** On the demonstration program, [aUV] is a vec2 at location 1. *)
Lemma attribute_binds_describes_enables_demo :
  exists p st1 b,
    newProgram demo "f" "v" WebGL.fresh = (Ok p, st1)
    /\ tableEntry (attributes p) "aUV" = Some b
    /\ attribute demo "aUV" (JRef 50) (JNum 20) (JNum 12) (p, st1)
       = (Ok (),
          (p, afterCalls
                [ Call "bindBuffer" [JNum 34962; JRef 50];
                  Call "vertexAttribPointer"
                       [JNum 1; JNum 2; JNum 5126; JBool false; JNum 20; JNum 12];
                  Call "enableVertexAttribArray" [JNum 1] ]
                st1)).
Proof.
  eexists _, _, _. split; [vm_compute; reflexivity|]. split; [vm_compute; reflexivity|].
  refine (attribute_binds_describes_enables demo _ _ "aUV" _ _ _
            (mkBinding "FLOAT_VEC2" (mkActiveInfo "aUV" 1 35664) (JNum 1) None) _).
  vm_compute; reflexivity.
Defined.

(** ** The default branch *)

(** C9: every supported token parses to one of the four selectors the
    switch handles, and [uniform] on a name whose binding holds a supported
    token returns normally, whatever the value and the state. *)
Theorem uniform_never_throws_on_supported drv self st name value b :
  tableEntry (uniforms self) name = Some b ->
  In (type b) types ->
  In (baseVecType (parseType (type b))) ["VEC"; "MAT"; "2D"; "CUB"]
  /\ exists cs, uniform drv name value (self, st) = (Ok (), (self, afterCalls cs st)).
Proof.
  intros Hentry Hty. split.
  - revert Hty. generalize (type b). intros t. unfold types. cbn [In].
    intros H. repeat (destruct H as [<-|H]; [vm_compute; tauto|]). destruct H.
  - rewrite (uniform_on_entry _ _ _ _ _ _ Hentry).
    apply dispatchUniform_returns. exact Hty.
Qed.

Lemma uniform_never_throws_on_supported_demo :
  exists p st1 b,
    newProgram demo "f" "v" WebGL.fresh = (Ok p, st1)
    /\ tableEntry (uniforms p) "uColors" = Some b
    /\ In (type b) types
    /\ In (baseVecType (parseType (type b))) ["VEC"; "MAT"; "2D"; "CUB"]
    /\ exists cs, uniform demo "uColors" (JRef 7) (p, st1) = (Ok (), (p, afterCalls cs st1)).
Proof.
  eexists _, _, _. split; [vm_compute; reflexivity|]. split; [vm_compute; reflexivity|].
  split; [vm_compute; tauto|].
  refine (uniform_never_throws_on_supported demo _ _ "uColors" _ _ _ _).
  - vm_compute; reflexivity.
  - vm_compute; tauto.
Defined.

(** ** destructor *)

(** C10: [destructor] calls [deleteProgram] on the program handle and
    nothing else; [this] (tables, counter, handle, sources) is the same
    object state afterwards, and on the destroyed program [uniform] and
    [attribute] still dispatch in full on the names their tables hold. *)
Theorem destructor_only_deletes_handle drv fsrc vsrc st0 p st1 st :
  newProgram drv fsrc vsrc st0 = (Ok p, st1) ->
  let destroyed := afterCalls [Call "deleteProgram" [glProgram p]] st in
  destructor (p, st) = (Ok (), (p, destroyed))
  /\ (forall name value b,
        tableEntry (uniforms p) name = Some b ->
        exists cs,
          spec_setUniform drv b value = Some cs
          /\ uniform drv name value (p, destroyed) = (Ok (), (p, afterCalls cs destroyed)))
  /\ (forall name buffer stride offset b,
        tableEntry (attributes p) name = Some b ->
        attribute drv name buffer stride offset (p, destroyed)
        = (Ok (), (p, afterCalls (attributeCalls drv b buffer stride offset) destroyed))).
Proof.
  intros Hnew destroyed.
  destruct (newProgram_tables _ _ _ _ _ _ Hnew) as (uo & ao & Hu & _ & Huo & _).
  split; [reflexivity|]. split.
  - intros name value b Hentry.
    rewrite (uniform_on_entry _ _ _ _ _ _ Hentry).
    apply dispatchUniform_refines.
    rewrite Hu in Hentry. exact (tableEntry_forall _ _ _ _ Huo Hentry).
  - intros name buffer stride offset b Hentry.
    apply attribute_on_entry. exact Hentry.
Qed.

Lemma destructor_only_deletes_handle_demo :
  exists p st1,
    newProgram demo "f" "v" WebGL.fresh = (Ok p, st1)
    /\ destructor (p, st1)
       = (Ok (), (p, afterCalls [Call "deleteProgram" [JRef 2]] st1))
    /\ uniform demo "uSampler" (JRef 9)
               (p, afterCalls [Call "deleteProgram" [JRef 2]] st1)
       = (Ok (),
          (p, afterCalls [ Call "deleteProgram" [JRef 2];
                           Call "activeTexture" [JNum 33985];
                           Call "bindTexture" [JNum 3553; JRef 9];
                           Call "uniform1i" [JRef 101; JNum 1] ] st1)).
Proof.
  eexists _, _. split; [vm_compute; reflexivity|].
  split.
  - refine (proj1 (destructor_only_deletes_handle demo "f" "v" WebGL.fresh _ _ _ _)).
    vm_compute; reflexivity.
  - vm_compute; reflexivity.
Defined.

(** ** Names the tables do not hold *)

(** When the property read gives [undefined] (or anything falsy), [uniform]
    and [attribute] return without a call and without touching [this]. *)
Lemma uniform_falsy_noop drv self o st name value :
  uniforms self = Some o ->
  pv_truthy (obj_get o name) = false ->
  uniform drv name value (self, st) = (Ok (), (self, st)).
Proof.
  intros Ho Hf. unfold uniform, bind, this, readTable; cbn [fst snd].
  rewrite Ho. unfold ret. rewrite Hf. reflexivity.
Qed.

Lemma attribute_falsy_noop drv self o st name buffer stride offset :
  attributes self = Some o ->
  pv_truthy (obj_get o name) = false ->
  attribute drv name buffer stride offset (self, st) = (Ok (), (self, st)).
Proof.
  intros Ho Hf. unfold attribute, bind, this, readTable; cbn [fst snd].
  rewrite Ho. unfold ret. rewrite Hf. reflexivity.
Qed.

(** A name that no table of the program holds, and that [Object.prototype]
    does not define, reads as [undefined] as long as no reflected variable
    was named "__proto__". *)
Lemma obj_get_missing o name :
  own o !! name = None -> proto o = None ->
  ~ In name objectPrototypeNames ->
  obj_get o name = PValue JUndefined.
Proof.
  intros Hown Hproto Hnot. unfold obj_get. rewrite Hown, Hproto.
  unfold objectPrototype_get. rewrite bool_decide_eq_false_2; [reflexivity|].
  intros Hin. apply Hnot, list_elem_of_In, Hin.
Qed.

(** The documented leniency, where it holds: a name that is no own
    property of the table and no property of [Object.prototype]. *)
Lemma uniform_unknown_name_noop drv self o st name value :
  uniforms self = Some o ->
  own o !! name = None -> proto o = None ->
  ~ In name objectPrototypeNames ->
  uniform drv name value (self, st) = (Ok (), (self, st)).
Proof.
  intros Ho Hown Hproto Hnot. apply (uniform_falsy_noop _ _ o); [exact Ho|].
  rewrite (obj_get_missing _ _ Hown Hproto Hnot). reflexivity.
Qed.

Lemma attribute_unknown_name_noop drv self o st name buffer stride offset :
  attributes self = Some o ->
  own o !! name = None -> proto o = None ->
  ~ In name objectPrototypeNames ->
  attribute drv name buffer stride offset (self, st) = (Ok (), (self, st)).
Proof.
  intros Ho Hown Hproto Hnot. apply (attribute_falsy_noop _ _ o); [exact Ho|].
  rewrite (obj_get_missing _ _ Hown Hproto Hnot). reflexivity.
Qed.

(** C5 at the failing input: no uniform and no attribute of the
    demonstration program is called "constructor", yet [uniform] and
    [attribute] on that name throw a [TypeError] instead of returning: the
    guard [if (this.uniforms[name])] reads [Object.prototype.constructor],
    which is truthy, and [parseType] is then applied to [undefined].  No GPU
    call is made and the state is unchanged.  A name that is absent and not
    inherited ("uMissing") is the documented no-op. *)
Theorem absent_inherited_name_throws :
  exists p st1,
    newProgram demo "f" "v" WebGL.fresh = (Ok p, st1)
    /\ tableEntry (uniforms p) "constructor" = None
    /\ tableEntry (attributes p) "constructor" = None
    /\ uniform demo "constructor" (JRef 50) (p, st1)
       = (Throw (TypeError "Cannot read property 'split' of undefined"), (p, st1))
    /\ attribute demo "constructor" (JRef 50) (JNum 0) (JNum 0) (p, st1)
       = (Throw (TypeError "Cannot read property 'split' of undefined"), (p, st1))
    /\ uniform demo "uMissing" (JRef 50) (p, st1) = (Ok (), (p, st1))
    /\ attribute demo "aMissing" (JRef 50) (JNum 0) (JNum 0) (p, st1) = (Ok (), (p, st1)).
Proof.
  eexists _, _. split; [vm_compute; reflexivity|].
  repeat split; vm_compute; reflexivity.
Qed.

(** ** Compile errors *)

(** C6, as stated, fails on the stage identity: a context that rejects the
    fragment source and one that rejects the vertex source, with the same
    diagnostic, make the constructor throw the same error value, so nothing
    read from the error can tell the stage. *)
Lemma compile_error_has_no_stage :
  let rejectsFragment := WebGL.context [(35632, "bad")] "0:1: syntax error" [] [] in
  let rejectsVertex := WebGL.context [(35633, "bad")] "0:1: syntax error" [] [] in
  fst (newProgram rejectsFragment "bad" "good" WebGL.fresh)
  = Throw (Error "An error occurred compiling the shaders: 0:1: syntax error")
  /\ fst (newProgram rejectsVertex "good" "bad" WebGL.fresh)
     = Throw (Error "An error occurred compiling the shaders: 0:1: syntax error")
  /\ ~ exists stageOf, errorIdentifiesStage stageOf.
Proof.
  intros rejectsFragment rejectsVertex.
  split; [reflexivity|]. split; [reflexivity|].
  intros [stageOf H].
  assert (E1 : exists s1, newProgram rejectsFragment "bad" "good" WebGL.fresh
                          = (Throw (Error "An error occurred compiling the shaders: 0:1: syntax error"), s1))
    by (eexists; vm_compute; reflexivity).
  assert (E2 : exists s2, newProgram rejectsVertex "good" "bad" WebGL.fresh
                          = (Throw (Error "An error occurred compiling the shaders: 0:1: syntax error"), s2))
    by (eexists; vm_compute; reflexivity).
  destruct E1 as [s1 E1]. destruct E2 as [s2 E2].
  destruct (H _ _ _ _ _ _ E1) as [HF _]. destruct (H _ _ _ _ _ _ E2) as [_ HV].
  specialize (HF eq_refl). specialize (HV eq_refl eq_refl).
  rewrite HF in HV. discriminate HV.
Qed.

(** C6, amended: when a stage fails to compile, the constructor throws an
    [Error] whose message is the fixed prefix followed by the diagnostic log
    of the first failing stage (fragment is compiled first), unaltered; the
    error does not name the stage.  Up to the throw no program object has
    been created, attached to or linked, and the caller gets no [Program]. *)
Theorem compile_failure_aborts drv fsrc vsrc st :
  let FS := constant drv "FRAGMENT_SHADER" in
  let VS := constant drv "VERTEX_SHADER" in
  compileStatus drv FS fsrc = false \/ compileStatus drv VS vsrc = false ->
  let log := if compileStatus drv FS fsrc then shaderInfoLog drv VS vsrc
             else shaderInfoLog drv FS fsrc in
  exists cs,
    newProgram drv fsrc vsrc st
    = (Throw (Error ("An error occurred compiling the shaders: " +:+ log)),
       mkGLState (next_handle st + (if compileStatus drv FS fsrc then 2 else 1))
                 (calls st ++ cs))
    /\ Forall (fun c => ~ In (methodOf c) ["createProgram"; "attachShader"; "linkProgram"]) cs.
Proof.
  intros FS VS Hfail log. subst log.
  unfold newProgram. rewrite initProgram_run. cbn zeta.
  cbn [fShaderSource vShaderSource]. fold FS VS.
  assert (Hno : forall stage h src extra,
             Forall (fun c => ~ In (methodOf c) ["createProgram"; "attachShader"; "linkProgram"])
                    (compileCalls drv stage h src ++ extra) <->
             Forall (fun c => ~ In (methodOf c) ["createProgram"; "attachShader"; "linkProgram"])
                    extra).
  { intros stage h src extra. unfold compileCalls. cbn [app].
    split.
    - intros H. do 4 (apply Forall_cons_1 in H; destruct H as [_ H]). exact H.
    - intros H. repeat (constructor; [cbn; intuition discriminate|]). exact H. }
  destruct (compileStatus drv FS fsrc) eqn:EF; cbn [negb].
  - destruct Hfail as [Hfail|Hfail]; [discriminate|]. rewrite Hfail. cbn [negb].
    eexists. split.
    + rewrite <- !app_assoc. f_equal. f_equal. lia.
    + apply Hno, Hno. constructor; [cbn; intuition discriminate|constructor].
  - eexists. split.
    + rewrite <- !app_assoc. f_equal. f_equal. lia.
    + apply Hno. constructor; [cbn; intuition discriminate|constructor].
Qed.

Lemma compile_failure_aborts_fragment :
  exists cs,
    newProgram (WebGL.context [(35632, "bad")] "0:1: syntax error" [] []) "bad" "good"
               WebGL.fresh
    = (Throw (Error "An error occurred compiling the shaders: 0:1: syntax error"),
       mkGLState 1 cs)
    /\ Forall (fun c => ~ In (methodOf c) ["createProgram"; "attachShader"; "linkProgram"]) cs.
Proof.
  refine (compile_failure_aborts
            (WebGL.context [(35632, "bad")] "0:1: syntax error" [] []) "bad" "good"
            WebGL.fresh _).
  left. vm_compute. reflexivity.
Defined.

(** ** Unsupported type tokens *)

Lemma js_strict_eq_num x v : js_strict_eq x (JNum v) = true -> x = JNum v.
Proof.
  unfold js_strict_eq. destruct x; try discriminate;
    intros H; apply bool_decide_eq_true_1 in H; exact H.
Qed.

Lemma getVariableType_unsupported drv v t :
  unsupportedToken drv v -> getVariableType drv v <> Ok t.
Proof.
  intros Hun H. destruct (getVariableType_from_ok _ _ _ _ H) as [Hin Heq].
  unfold unsupportedToken in Hun. rewrite Forall_forall in Hun.
  apply (Hun t); [apply list_elem_of_In, Hin|apply js_strict_eq_num, Heq].
Qed.

Lemma Forall2_Exists_left {A B} (R : A -> B -> Prop) (P : A -> Prop) l k :
  Forall2 R l k -> Exists P l -> exists a b, R a b /\ P a.
Proof.
  induction 1 as [|a b l k Hab _ IH]; intros HE.
  - inversion HE.
  - apply Exists_cons in HE. destruct HE as [Ha|HE]; [exists a, b; tauto|exact (IH HE)].
Qed.

(** C7: with both stages compiled and the program linked, an active
    attribute or uniform whose type is outside the table makes the whole
    construction throw, so no variable is skipped and no table is produced;
    but the error thrown is the constant text of the template literal, the
    same for every token: it does not carry the token. *)
Theorem unsupported_type_aborts_without_token drv fsrc vsrc st :
  compileStatus drv (constant drv "FRAGMENT_SHADER") fsrc = true ->
  compileStatus drv (constant drv "VERTEX_SHADER") vsrc = true ->
  linkStatus drv vsrc fsrc = true ->
  Exists (fun a => unsupportedToken drv (ai_type a))
         (activeAttributes drv vsrc fsrc ++ activeUniforms drv vsrc fsrc) ->
  exists st',
    newProgram drv fsrc vsrc st = (Throw (Error "get type failed ' + value"), st').
Proof.
  intros HF HV HL HE.
  unfold newProgram. rewrite initProgram_run. cbn zeta.
  cbn [fShaderSource vShaderSource]. rewrite HF, HV, HL. cbn [negb].
  destruct (attributeLoop _ _ _ _ _ _ _ _) as [[attrs|e] [self1 st1]] eqn:EA.
  - destruct (attributeLoop_ok _ _ _ _ _ _ _ _ _ _ EA) as (abs & HA & _).
    apply Exists_app in HE. destruct HE as [HE|HE].
    { destruct (Forall2_Exists_left _ _ _ _ HA HE) as (a & b & (Hty & _) & Hun).
      destruct (getVariableType_unsupported _ _ _ Hun Hty). }
    destruct (uniformLoop _ _ _ _ _ _ _ _) as [[unifs|e] [self2 st2]] eqn:EU.
    + destruct (uniformLoop_ok _ _ _ _ _ _ _ _ _ _ _ _ EU) as (ubs & HU & _).
      destruct (Forall2_Exists_left _ _ _ _ HU HE) as (u & b & (Hty & _) & Hun).
      destruct (getVariableType_unsupported _ _ _ Hun Hty).
    + rewrite (uniformLoop_throw _ _ _ _ _ _ _ _ _ _ EU). eexists. reflexivity.
  - rewrite (attributeLoop_throw _ _ _ _ _ _ _ _ _ _ EA). eexists. reflexivity.
Qed.

(** A WebGL 2 context reports a uniform of type SAMPLER_3D (0x8B5F). *)
Lemma unsupported_type_aborts_without_token_sampler3D :
  exists st',
    newProgram (WebGL.context [] "" [] [mkActiveInfo "uVolume" 1 35679]) "f" "v" WebGL.fresh
    = (Throw (Error "get type failed ' + value"), st').
Proof.
  refine (unsupported_type_aborts_without_token
            (WebGL.context [] "" [] [mkActiveInfo "uVolume" 1 35679]) "f" "v"
            WebGL.fresh _ _ _ _).
  - vm_compute; reflexivity.
  - vm_compute; reflexivity.
  - vm_compute; reflexivity.
  - apply Exists_cons_hd. unfold unsupportedToken, types.
    repeat (constructor; [vm_compute; discriminate|]). constructor.
Defined.

(** ** Canonical names *)

Lemma includes_suffix foo : JSString.includes "[0]" (foo +:+ "[0]") = true.
Proof.
  induction foo as [|c foo IH]; [reflexivity|].
  change (String c foo +:+ "[0]") with (String c (foo +:+ "[0]")).
  cbn [JSString.includes]. rewrite IH. apply orb_true_r.
Qed.

(** An occurrence of "[0]" cannot straddle the end of [foo] in
    [foo ++ "[0]"]. *)
Lemma prefix_no_straddle c foo :
  String.prefix "[0]" (String c foo) = false ->
  String.prefix "[0]" (String c foo +:+ "[0]") = false.
Proof.
  destruct foo as [|d [|e [|f foo]]]; cbv [String.append String.prefix];
    repeat match goal with
           | |- context [ascii_dec ?a ?b] => destruct (ascii_dec a b); try discriminate
           end;
    try reflexivity; try congruence.
Qed.

Lemma removeFirst_suffix foo :
  JSString.includes "[0]" foo = false ->
  JSString.removeFirst "[0]" (foo +:+ "[0]") = foo.
Proof.
  induction foo as [|c foo IH]; [reflexivity|].
  cbn [JSString.includes]. intros H. apply orb_false_elim in H. destruct H as [Hp Hi].
  pose proof (prefix_no_straddle _ _ Hp) as Hq.
  change (String c foo +:+ "[0]") with (String c (foo +:+ "[0]")) in *.
  cbn [JSString.removeFirst]. rewrite Hq, (IH Hi). reflexivity.
Qed.

(** Stripping the suffix: exact when "[0]" does not occur earlier in the
    name. *)
Lemma canonicalName_suffix foo :
  JSString.includes "[0]" foo = false -> canonicalName (foo +:+ "[0]") = foo.
Proof.
  intros H. unfold canonicalName. rewrite includes_suffix. apply removeFirst_suffix, H.
Qed.

Lemma hasChar_suffix foo : hasChar "]" (foo +:+ "[0]") = true.
Proof.
  induction foo as [|c foo IH]; [reflexivity|].
  change (String c foo +:+ "[0]") with (String c (foo +:+ "[0]")).
  cbn [hasChar]. rewrite IH. apply orb_true_r.
Qed.

(** ** Lookups in a table built by assignments *)

Lemma noOwnProto_set o k b : noOwnProto o -> noOwnProto (obj_set o k b).
Proof.
  unfold noOwnProto, obj_set. intros H.
  destruct (String.eqb k "__proto__") eqn:E; cbn [own]; [exact H|].
  rewrite lookup_insert_ne; [exact H|].
  intros ->. rewrite String.eqb_refl in E. discriminate.
Qed.

Lemma noOwnProto_store (name : Binding -> string) bs :
  forall o, noOwnProto o ->
            noOwnProto (fold_left (fun o b => obj_set o (name b) b) bs o).
Proof.
  induction bs as [|b bs IH]; intros o Ho; cbn; [exact Ho|].
  apply IH, noOwnProto_set, Ho.
Qed.

(** Reading back what was just assigned. *)
Lemma tableEntry_set_same o k b :
  noOwnProto o -> tableEntry (Some (obj_set o k b)) k = Some b.
Proof.
  unfold noOwnProto, tableEntry, obj_set, obj_get. intros H.
  destruct (String.eqb k "__proto__") eqn:E; cbn [own proto].
  - apply String.eqb_eq in E. subst k. rewrite H. reflexivity.
  - rewrite lookup_insert_eq. reflexivity.
Qed.

(** An assignment under another key does not change which binding a name
    gives. *)
Lemma tableEntry_set_other o k k' b :
  k <> k' -> tableEntry (Some (obj_set o k' b)) k = tableEntry (Some o) k.
Proof.
  intros Hne. unfold tableEntry, obj_set, obj_get.
  destruct (String.eqb k' "__proto__") eqn:E; cbn [own proto].
  - apply String.eqb_eq in E. subst k'.
    destruct (own o !! k); [reflexivity|].
    rewrite (proj2 (String.eqb_neq k "__proto__") Hne).
    unfold objectPrototype_get.
    destruct (proto o);
      repeat match goal with |- context [if ?c then _ else _] => destruct c end;
      reflexivity.
  - rewrite lookup_insert_ne by (intros ->; apply Hne; reflexivity). reflexivity.
Qed.

Lemma tableEntry_store_kept (name : Binding -> string) k b bs :
  Forall (fun b' => name b' <> k) bs ->
  forall o, tableEntry (Some o) k = Some b ->
            tableEntry (Some (fold_left (fun o b => obj_set o (name b) b) bs o)) k = Some b.
Proof.
  induction 1 as [|b' bs Hb' _ IH]; intros o Ho; cbn [fold_left]; [exact Ho|].
  apply IH. rewrite tableEntry_set_other by (intros ->; apply Hb'; reflexivity). exact Ho.
Qed.

(** A name with a closing bracket that is no own property reads as
    [undefined]: neither [Object.prototype] nor a binding object has such a
    property. *)
Lemma obj_get_bracket_name o name :
  own o !! name = None -> hasChar "]" name = true ->
  obj_get o name = PValue JUndefined.
Proof.
  intros Hown Hbr. unfold obj_get. rewrite Hown.
  assert (Hne : forall lit, hasChar "]" lit = false -> String.eqb name lit = false).
  { intros lit Hlit. apply String.eqb_neq. intros ->. congruence. }
  assert (Hobj : objectPrototype_get name = PValue JUndefined).
  { unfold objectPrototype_get. rewrite bool_decide_eq_false_2; [reflexivity|].
    unfold objectPrototypeNames. intros Hin. apply list_elem_of_In in Hin. cbn [In] in Hin.
    repeat (destruct Hin as [<-|Hin]; [discriminate Hbr|]). destruct Hin. }
  destruct (proto o); [|exact Hobj].
  rewrite !Hne by reflexivity. exact Hobj.
Qed.

Lemma own_store_None (name : Binding -> string) k bs :
  Forall (fun b' => name b' <> k) bs ->
  forall o, own o !! k = None ->
            own (fold_left (fun o b => obj_set o (name b) b) bs o) !! k = None.
Proof.
  induction 1 as [|b' bs Hb' _ IH]; intros o Ho; cbn [fold_left]; [exact Ho|].
  apply IH. unfold obj_set. destruct (String.eqb (name b') "__proto__"); cbn [own].
  - exact Ho.
  - rewrite lookup_insert_ne by exact Hb'. exact Ho.
Qed.

(** C4, as stated, fails when "[0]" also occurs earlier in the name: the
    member array of a struct array element is reported as "a[0].b[0]";
    [replace] removes the first occurrence, so the binding is stored under
    "a.b[0]", and "a[0].b" finds no entry. *)
Lemma first_occurrence_is_stripped :
  let u := mkActiveInfo "a[0].b[0]" 2 35665 in
  exists p st1,
    newProgram (WebGL.context [] "" [] [u]) "f" "v" WebGL.fresh = (Ok p, st1)
    /\ ai_name u = "a[0].b" +:+ "[0]"
    /\ tableEntry (uniforms p) "a[0].b" = None
    /\ uniform (WebGL.context [] "" [] [u]) "a[0].b" (JRef 50) (p, st1) = (Ok (), (p, st1))
    /\ (exists b, tableEntry (uniforms p) "a.b[0]" = Some b /\ info b = u)
    /\ ~ storedUnderStrippedName p u.
Proof.
  intros u. eexists _, _. split; [vm_compute; reflexivity|].
  split; [reflexivity|]. split; [vm_compute; reflexivity|].
  split; [vm_compute; reflexivity|].
  split; [eexists; split; vm_compute; reflexivity|].
  intros H. destruct (H "a[0].b" eq_refl) as (b & Hb & _).
  vm_compute in Hb. discriminate Hb.
Qed.

(** C4, amended: a uniform reported as foo[0], where "[0]" does not occur
    in foo, is stored under foo; provided no uniform enumerated after it
    has the same canonical name, [uniform] on foo dispatches on its
    binding.  Provided no reported name has the canonical form foo[0], the
    table has no entry under foo[0] and [uniform] on foo[0] is a no-op. *)
Theorem array_suffix_is_stripped drv fsrc vsrc st0 p st1 foo u before after :
  newProgram drv fsrc vsrc st0 = (Ok p, st1) ->
  activeUniforms drv vsrc fsrc = (before ++ u :: after)%list ->
  ai_name u = foo +:+ "[0]" ->
  JSString.includes "[0]" foo = false ->
  Forall (fun u' => canonicalName (ai_name u') <> foo) after ->
  Forall (fun u' => canonicalName (ai_name u') <> foo +:+ "[0]") (before ++ u :: after) ->
  (exists b,
      tableEntry (uniforms p) foo = Some b /\ info b = u
      /\ forall value st,
           exists cs, spec_setUniform drv b value = Some cs
                      /\ uniform drv foo value (p, st) = (Ok (), (p, afterCalls cs st)))
  /\ tableEntry (uniforms p) (foo +:+ "[0]") = None
  /\ forall value st, uniform drv (foo +:+ "[0]") value (p, st) = (Ok (), (p, st)).
Proof.
  intros Hnew Hsplit Hname Hfoo Hafter Hnone.
  destruct (newProgram_tables _ _ _ _ _ _ Hnew) as (uo & ao & Hu & _ & Huo & _).
  destruct (newProgram_ok _ _ _ _ _ _ Hnew) as (abs & ubs & _ & HU & _ & _ & Hp).
  rewrite Hsplit in HU.
  assert (Hinfo : map info ubs = (before ++ u :: after)%list).
  { clear -HU. induction HU as [|u' b' us bs (_ & Hi & _) _ IH]; [reflexivity|].
    cbn [map]. rewrite Hi, IH. reflexivity. }
  apply Forall2_app_inv_l in HU. destruct HU as (bs1 & bs2' & _ & HU2 & Hubs).
  inversion HU2 as [|u0 b us0 bs2 (Hty & Hib & Hpos) HU3]; subst u0 us0 bs2'.
  assert (Hentry : tableEntry (uniforms p) foo = Some b).
  { rewrite Hp, Hubs. cbn [uniforms]. unfold storeUniforms.
    rewrite fold_left_app. cbn [fold_left].
    apply tableEntry_store_kept.
    - clear -HU3 Hafter. induction HU3 as [|u' b' us bs (_ & Hi & _) _ IH]; [constructor|].
      apply Forall_cons_1 in Hafter. destruct Hafter as [H1 H2].
      constructor; [rewrite Hi; exact H1|exact (IH H2)].
    - rewrite Hib, Hname, (canonicalName_suffix _ Hfoo).
      apply tableEntry_set_same. apply noOwnProto_store. apply lookup_empty. }
  assert (Hown : own uo !! (foo +:+ "[0]") = None).
  { rewrite Hp in Hu. cbn [uniforms] in Hu. injection Hu as <-.
    apply own_store_None; [|apply lookup_empty].
    rewrite <- Hinfo in Hnone. clear -Hnone.
    induction ubs as [|b' bs IH]; [constructor|].
    cbn [map] in Hnone. apply Forall_cons_1 in Hnone. destruct Hnone as [H1 H2].
    constructor; [exact H1|exact (IH H2)]. }
  pose proof (obj_get_bracket_name _ _ Hown (hasChar_suffix foo)) as Hget.
  split; [|split].
  - exists b. split; [exact Hentry|]. split; [exact Hib|].
    intros value st. rewrite (uniform_on_entry _ _ _ _ _ _ Hentry).
    apply dispatchUniform_refines.
    rewrite Hu in Hentry. exact (tableEntry_forall _ _ _ _ Huo Hentry).
  - rewrite Hu. unfold tableEntry. rewrite Hget. reflexivity.
  - intros value st. apply (uniform_falsy_noop _ _ uo); [exact Hu|].
    rewrite Hget. reflexivity.
Qed.

(** The demonstration program reports the array [uColors] as "uColors[0]". *)
Lemma array_suffix_is_stripped_demo :
  exists p st1 b,
    newProgram demo "f" "v" WebGL.fresh = (Ok p, st1)
    /\ tableEntry (uniforms p) "uColors" = Some b
    /\ ai_name (info b) = "uColors[0]"
    /\ (forall value st,
          exists cs, spec_setUniform demo b value = Some cs
                     /\ uniform demo "uColors" value (p, st) = (Ok (), (p, afterCalls cs st)))
    /\ tableEntry (uniforms p) "uColors[0]" = None
    /\ forall value st, uniform demo "uColors[0]" value (p, st) = (Ok (), (p, st)).
Proof.
  destruct (newProgram demo "f" "v" WebGL.fresh) as [r st1] eqn:E.
  assert (Hr : exists p, r = Ok p)
    by (apply (f_equal fst) in E; cbn [fst] in E; subst r; vm_compute; eexists; reflexivity).
  destruct Hr as [p ->].
  destruct (array_suffix_is_stripped demo "f" "v" WebGL.fresh p st1 "uColors"
              (mkActiveInfo "uColors[0]" 4 35666)
              [mkActiveInfo "uPMatrix" 1 35676; mkActiveInfo "uSampler" 1 35678]
              [mkActiveInfo "uEnv" 1 35680] E eq_refl eq_refl eq_refl)
    as ((b & Hb & Hi & Hd) & Hnone & Hnoop).
  - repeat constructor. vm_compute. discriminate.
  - repeat (constructor; [vm_compute; discriminate|]). constructor.
  - exists p, st1, b. split; [reflexivity|]. split; [exact Hb|].
    split; [rewrite Hi; reflexivity|]. split; [exact Hd|]. split; [exact Hnone|exact Hnoop].
Defined.

(** * Further properties of the class *)

(** ** Outcomes of the construction *)

(** X1: when both stages compile and the link status is false, the
    constructor throws the link error with the program log appended.  By
    then the two shader objects and the program object exist and the program
    has been linked; nothing is deleted, and no reflection query is made. *)
Theorem link_failure_aborts drv fsrc vsrc st :
  compileStatus drv (constant drv "FRAGMENT_SHADER") fsrc = true ->
  compileStatus drv (constant drv "VERTEX_SHADER") vsrc = true ->
  linkStatus drv vsrc fsrc = false ->
  newProgram drv fsrc vsrc st
  = (Throw (Error ("Unable to initialize the shader program: "
                   +:+ programInfoLog drv vsrc fsrc)),
     mkGLState (3 + next_handle st)
       (calls st
        ++ compileCalls drv "FRAGMENT_SHADER" (next_handle st) fsrc
        ++ compileCalls drv "VERTEX_SHADER" (S (next_handle st)) vsrc
        ++ linkCalls drv (next_handle st)
        ++ [Call "getProgramInfoLog" [JRef (S (S (next_handle st)))]])).
Proof.
  intros HF HV HL. unfold newProgram. rewrite initProgram_run. cbn zeta.
  cbn [fShaderSource vShaderSource]. rewrite HF, HV, HL. cbn [negb].
  rewrite <- !app_assoc. reflexivity.
Qed.

Lemma link_failure_aborts_unlinkable :
  let ctx := mkDriver WebGL.enum (fun _ _ => true) (fun _ _ => "")
                      (fun _ _ => false) (fun _ _ => "varying vUV not written")
                      (fun _ _ => []) (fun _ _ => [])
                      (fun _ _ _ => JNum (-1)) (fun _ _ _ => JNull) in
  fst (newProgram ctx "f" "v" WebGL.fresh)
  = Throw (Error "Unable to initialize the shader program: varying vUV not written").
Proof.
  intros ctx.
  rewrite (link_failure_aborts ctx "f" "v" WebGL.fresh eq_refl eq_refl eq_refl).
  reflexivity.
Defined.

(** X2: the constructor throws nothing but the compile error of the
    fragment stage, the compile error of the vertex stage, the link error,
    or the error of [getVariableType]; in particular never a [TypeError]. *)
Theorem newProgram_errors drv fsrc vsrc st e st' :
  newProgram drv fsrc vsrc st = (Throw e, st') ->
  e = compileMessage (shaderInfoLog drv (constant drv "FRAGMENT_SHADER") fsrc)
  \/ e = compileMessage (shaderInfoLog drv (constant drv "VERTEX_SHADER") vsrc)
  \/ e = Error ("Unable to initialize the shader program: " +:+ programInfoLog drv vsrc fsrc)
  \/ e = Error "get type failed ' + value".
Proof.
  unfold newProgram. rewrite initProgram_run. cbn zeta.
  cbn [fShaderSource vShaderSource].
  destruct (negb (compileStatus drv _ fsrc)); [intros [= <- _]; tauto|].
  destruct (negb (compileStatus drv _ vsrc)); [intros [= <- _]; tauto|].
  destruct (negb (linkStatus drv vsrc fsrc)); [intros [= <- _]; tauto|].
  destruct (attributeLoop _ _ _ _ _ _ _ _) as [[attrs|e0] [self1 st1]] eqn:EA.
  - destruct (uniformLoop _ _ _ _ _ _ _ _) as [[unifs|e0] [self2 st2]] eqn:EU;
      [discriminate|].
    intros [= <- _]. rewrite (uniformLoop_throw _ _ _ _ _ _ _ _ _ _ EU). tauto.
  - intros [= <- _]. rewrite (attributeLoop_throw _ _ _ _ _ _ _ _ _ _ EA). tauto.
Qed.

Lemma newProgram_errors_sampler3D :
  exists st',
    newProgram (WebGL.context [] "" [] [mkActiveInfo "uVolume" 1 35679]) "f" "v" WebGL.fresh
    = (Throw (Error "get type failed ' + value"), st')
    /\ (Error "get type failed ' + value" = compileMessage ""
        \/ Error "get type failed ' + value" = compileMessage ""
        \/ Error "get type failed ' + value"
           = Error ("Unable to initialize the shader program: " +:+ "")
        \/ Error "get type failed ' + value" = Error "get type failed ' + value").
Proof.
  eexists. split; [vm_compute; reflexivity|].
  refine (newProgram_errors
            (WebGL.context [] "" [] [mkActiveInfo "uVolume" 1 35679]) "f" "v"
            WebGL.fresh _ _ _).
  vm_compute; reflexivity.
Defined.

Lemma supportedToken_ok drv v :
  supportedToken drv v <-> exists t, getVariableType drv v = Ok t.
Proof.
  split.
  - intros (t & Hin & Hc). unfold getVariableType.
    induction types as [|t0 ts IH]; [destruct Hin|].
    cbn [getVariableType_from].
    destruct (js_strict_eq (constant drv t0) (JNum v)) eqn:E; [eexists; reflexivity|].
    destruct Hin as [->|Hin]; [|exact (IH Hin)].
    rewrite Hc in E. unfold js_strict_eq in E.
    rewrite bool_decide_eq_true_2 in E by reflexivity. discriminate.
  - intros [t H]. destruct (getVariableType_from_ok _ _ _ _ H) as [Hin Heq].
    exists t. split; [exact Hin|apply js_strict_eq_num, Heq].
Qed.

Lemma attributeLoop_total drv vsrc fsrc program pending :
  Forall (fun a => supportedToken drv (ai_type a)) pending ->
  forall i attrs heap,
    exists attrs' heap',
      attributeLoop drv vsrc fsrc program i pending attrs heap = (Ok attrs', heap').
Proof.
  induction 1 as [|a rest Ha _ IH]; intros i attrs [self st].
  - eexists _, _. reflexivity.
  - rewrite attributeLoop_cons. cbn zeta.
    apply supportedToken_ok in Ha. destruct Ha as [t ->]. apply IH.
Qed.

Lemma uniformLoop_total drv vsrc fsrc program pending :
  Forall (fun u => supportedToken drv (ai_type u)) pending ->
  forall i unifs heap,
    exists unifs' heap',
      uniformLoop drv vsrc fsrc program i pending unifs heap = (Ok unifs', heap').
Proof.
  induction 1 as [|u rest Hu _ IH]; intros i unifs [self st].
  - eexists _, _. reflexivity.
  - rewrite uniformLoop_cons, reflectUniform_run. cbn zeta.
    apply supportedToken_ok in Hu. destruct Hu as [t ->].
    destruct (isSamplerType t); apply IH.
Qed.

Lemma Forall2_left {A B} (R : A -> B -> Prop) (P : A -> Prop) l k :
  (forall a b, R a b -> P a) -> Forall2 R l k -> Forall P l.
Proof. intros HRP. induction 1; constructor; eauto. Qed.

(** X3: the constructor returns a program exactly when both stages compile,
    the program links, and the type of every active attribute and uniform
    is the constant of one of the seventeen tokens. *)
Theorem newProgram_succeeds_iff drv fsrc vsrc st :
  (exists p st', newProgram drv fsrc vsrc st = (Ok p, st'))
  <-> compileStatus drv (constant drv "FRAGMENT_SHADER") fsrc = true
      /\ compileStatus drv (constant drv "VERTEX_SHADER") vsrc = true
      /\ linkStatus drv vsrc fsrc = true
      /\ Forall (fun a => supportedToken drv (ai_type a))
                (activeAttributes drv vsrc fsrc ++ activeUniforms drv vsrc fsrc).
Proof.
  split.
  - intros (p & st' & H).
    destruct (newProgram_ok _ _ _ _ _ _ H) as (abs & ubs & HA & HU & _).
    revert H. unfold newProgram. rewrite initProgram_run. cbn zeta.
    cbn [fShaderSource vShaderSource].
    destruct (compileStatus drv _ fsrc); [|discriminate].
    destruct (compileStatus drv _ vsrc); [|discriminate].
    destruct (linkStatus drv vsrc fsrc); [|discriminate].
    intros _. repeat split. apply Forall_app. split.
    + eapply Forall2_left; [|exact HA]. intros a b (Hty & _).
      apply supportedToken_ok. eexists. exact Hty.
    + eapply Forall2_left; [|exact HU]. intros a b (Hty & _).
      apply supportedToken_ok. eexists. exact Hty.
  - intros (HF & HV & HL & Hall). apply Forall_app in Hall. destruct Hall as [HA HU].
    unfold newProgram. rewrite initProgram_run. cbn zeta.
    cbn [fShaderSource vShaderSource]. rewrite HF, HV, HL. cbn [negb].
    match goal with
    | |- context [attributeLoop ?d ?v ?f ?pr ?i ?l ?o ?h] =>
        destruct (attributeLoop_total d v f pr l HA i o h) as (attrs & [self1 st1] & ->)
    end.
    match goal with
    | |- context [uniformLoop ?d ?v ?f ?pr ?i ?l ?o ?h] =>
        destruct (uniformLoop_total d v f pr l HU i o h) as (unifs & [self2 st2] & ->)
    end.
    eexists _, _. reflexivity.
Qed.

(** ** getVariableType *)

Lemma getVariableType_from_first drv ts t v :
  NoDup (map (constant drv) ts) ->
  In t ts -> constant drv t = JNum v ->
  getVariableType_from drv ts v = Ok t.
Proof.
  induction ts as [|t0 ts IH]; intros Hnd Hin Hc; [destruct Hin|].
  cbn [map] in Hnd. apply NoDup_cons in Hnd. destruct Hnd as [Hnot Hnd].
  cbn [getVariableType_from].
  destruct (js_strict_eq (constant drv t0) (JNum v)) eqn:E.
  - destruct Hin as [->|Hin]; [reflexivity|].
    apply js_strict_eq_num in E. exfalso. apply Hnot.
    rewrite E, <- Hc. apply list_elem_of_In, in_map, Hin.
  - destruct Hin as [->|Hin]; [|exact (IH Hnd Hin Hc)].
    rewrite Hc in E. unfold js_strict_eq in E.
    rewrite bool_decide_eq_true_2 in E by reflexivity. discriminate.
Qed.

(** X4: in a context whose seventeen type constants are pairwise distinct,
    [getVariableType] inverts the constant table: it returns the token [t]
    exactly on the value of [gl[t]]. *)
Theorem getVariableType_inverts_constants drv t v :
  NoDup (map (constant drv) types) ->
  getVariableType drv v = Ok t <-> In t types /\ constant drv t = JNum v.
Proof.
  intros Hnd. split.
  - intros H. destruct (getVariableType_from_ok _ _ _ _ H) as [Hin Heq].
    split; [exact Hin|apply js_strict_eq_num, Heq].
  - intros [Hin Hc]. exact (getVariableType_from_first _ _ _ _ Hnd Hin Hc).
Qed.

Lemma getVariableType_inverts_constants_webgl :
  getVariableType demo 35676 = Ok "FLOAT_MAT4"
  <-> In "FLOAT_MAT4" types /\ constant demo "FLOAT_MAT4" = JNum 35676.
Proof.
  refine (getVariableType_inverts_constants demo "FLOAT_MAT4" 35676 _).
  apply (bool_decide_eq_true_1 (NoDup (map (constant demo) types))).
  vm_compute. reflexivity.
Defined.

(** ** parseType on arbitrary tokens *)

Lemma split_no_separator s :
  hasChar "_" s = false -> JSString.split "_" s = [s].
Proof.
  induction s as [|c s IH]; [reflexivity|].
  cbn [hasChar JSString.split]. intros H. apply orb_false_elim in H.
  destruct H as [Hc Hs]. rewrite Ascii.eqb_sym, Hc, (IH Hs). reflexivity.
Qed.

Lemma split_at_separator a s :
  hasChar "_" a = false ->
  JSString.split "_" (a +:+ "_" +:+ s) = a :: JSString.split "_" s.
Proof.
  induction a as [|c a IH].
  - intros _. reflexivity.
  - cbn [hasChar]. intros H. apply orb_false_elim in H. destruct H as [Hc Ha].
    change (String c a +:+ "_" +:+ s) with (String c (a +:+ "_" +:+ s)).
    cbn [JSString.split]. rewrite Ascii.eqb_sym, Hc, (IH Ha). reflexivity.
Qed.

(** X5: a token without separator, whatever it is (the empty string and
    unknown names included), parses as a vector of size 1 of itself. *)
Theorem parseType_without_separator s :
  hasChar "_" s = false ->
  parseType s = mkParsedType s "VEC1" "VEC" (JNum 1).
Proof.
  intros H. unfold parseType. rewrite (split_no_separator _ H). reflexivity.
Qed.

Lemma parseType_without_separator_DOUBLE :
  parseType "DOUBLE" = mkParsedType "DOUBLE" "VEC1" "VEC" (JNum 1).
Proof. exact (parseType_without_separator "DOUBLE" eq_refl). Defined.

(** X6: only the first two segments of a token count: the first is the
    base type, the first three characters of the second the selector, its
    fourth character the size; anything after a second separator is
    ignored. *)
Theorem parseType_first_two_segments a b rest :
  hasChar "_" a = false -> hasChar "_" b = false ->
  let parsed :=
    mkParsedType a b (JSString.substr0 3 b) (JSString.Number (JSString.charAt b 3)) in
  parseType (a +:+ "_" +:+ b) = parsed
  /\ parseType (a +:+ "_" +:+ b +:+ "_" +:+ rest) = parsed.
Proof.
  intros Ha Hb parsed. unfold parseType. split.
  - rewrite (split_at_separator _ _ Ha), (split_no_separator _ Hb). reflexivity.
  - rewrite (split_at_separator _ _ Ha), (split_at_separator _ _ Hb).
    destruct (JSString.split "_" rest); reflexivity.
Qed.

Lemma parseType_first_two_segments_MAT2x3 :
  parseType "FLOAT_MAT2" = mkParsedType "FLOAT" "MAT2" "MAT" (JNum 2)
  /\ parseType "FLOAT_MAT2_x3" = mkParsedType "FLOAT" "MAT2" "MAT" (JNum 2).
Proof. exact (parseType_first_two_segments "FLOAT" "MAT2" "x3" eq_refl eq_refl). Defined.

(** ** Canonical names in general *)

Lemma substring_all s : String.substring 0 (String.length s) s = s.
Proof. induction s as [|c s IH]; [reflexivity|]. cbn. rewrite IH. reflexivity. Qed.

Lemma prefix_no_straddle_post c pre post :
  String.prefix "[0]" (String c pre) = false ->
  String.prefix "[0]" (String c pre +:+ "[0]" +:+ post) = false.
Proof.
  destruct pre as [|d [|e [|f pre]]]; cbv [String.append String.prefix];
    repeat match goal with
           | |- context [ascii_dec ?a ?b] => destruct (ascii_dec a b); try discriminate
           end;
    try reflexivity; try congruence.
Qed.

Lemma includes_middle pre post :
  JSString.includes "[0]" (pre +:+ "[0]" +:+ post) = true.
Proof.
  induction pre as [|c pre IH].
  - change ("" +:+ "[0]" +:+ post) with (String "[" (String "0" (String "]" post))).
    cbn [JSString.includes]. cbv [String.prefix].
    repeat match goal with
           | |- context [ascii_dec ?a ?b] => destruct (ascii_dec a b); try congruence
           end.
    destruct post; reflexivity.
  - change (String c pre +:+ "[0]" +:+ post) with (String c (pre +:+ "[0]" +:+ post)).
    cbn [JSString.includes]. rewrite IH. apply orb_true_r.
Qed.

Lemma removeFirst_middle pre post :
  JSString.includes "[0]" pre = false ->
  JSString.removeFirst "[0]" (pre +:+ "[0]" +:+ post) = pre +:+ post.
Proof.
  induction pre as [|c pre IH].
  - intros _.
    change ("" +:+ "[0]" +:+ post) with (String "[" (String "0" (String "]" post))).
    change ("" +:+ post) with post.
    unfold JSString.removeFirst.
    replace (String.prefix "[0]" (String "[" (String "0" (String "]" post)))) with true.
    + destruct post as [|c post]; [reflexivity|].
      cbn [String.length Nat.sub String.substring].
      rewrite substring_all. reflexivity.
    + cbv [String.prefix].
      repeat match goal with
             | |- context [ascii_dec ?a ?b] => destruct (ascii_dec a b); try congruence
             end.
      destruct post; reflexivity.
  - cbn [JSString.includes]. intros H. apply orb_false_elim in H. destruct H as [Hp Hi].
    pose proof (prefix_no_straddle_post _ _ post Hp) as Hq.
    change (String c pre +:+ "[0]" +:+ post) with (String c (pre +:+ "[0]" +:+ post)) in *.
    change (String c pre +:+ post) with (String c (pre +:+ post)).
    cbn [JSString.removeFirst]. rewrite Hq, (IH Hi). reflexivity.
Qed.

(** X12: the canonical name drops the first occurrence of "[0]", wherever
    it stands, and only that one: with no "[0]" in [pre], the name
    pre[0]post becomes prepost (so "lights[0].color" is "lights.color", and
    a later "[0]" in [post] stays). *)
Theorem canonicalName_drops_first_occurrence pre post :
  JSString.includes "[0]" pre = false ->
  canonicalName (pre +:+ "[0]" +:+ post) = pre +:+ post.
Proof.
  intros H. unfold canonicalName. rewrite includes_middle. apply removeFirst_middle, H.
Qed.

Lemma canonicalName_drops_first_occurrence_lights :
  canonicalName "lights[0].color" = "lights.color".
Proof. exact (canonicalName_drops_first_occurrence "lights" ".color" eq_refl). Defined.

(** ** What uniform and attribute leave alone *)

Lemma afterCalls_nil st : afterCalls [] st = st.
Proof. destruct st. unfold afterCalls. cbn. rewrite app_nil_r. reflexivity. Qed.

Lemma dispatchUniform_frame drv b value :
  exists r cs,
    (length cs <= 3)%nat
    /\ forall self st,
         dispatchUniform drv b value (self, st) = (r, (self, afterCalls cs st)).
Proof.
  unfold dispatchUniform, callMethod.
  repeat match goal with
         | |- context [if ?c then _ else _] => destruct c
         end.
  all: first
         [ eexists (Throw _), []; split; [cbn; lia|];
           intros self st; rewrite afterCalls_nil; reflexivity
         | eexists _, _; split;
           [|intros self st; unfold bind, gl, invoke, afterCalls;
             cbn [fst snd calls next_handle]; rewrite <- ?app_assoc; reflexivity];
           cbn; lia ].
Qed.

(** X7: whatever the name and the value, and whether it returns or throws,
    [uniform] never writes to the program object, never creates a GPU
    object, and appends at most three calls to the command stream; the
    outcome and the calls depend on the program object alone, not on the
    state of the context. *)
Theorem uniform_frame drv self name value :
  exists r cs,
    (length cs <= 3)%nat
    /\ forall st, uniform drv name value (self, st) = (r, (self, afterCalls cs st)).
Proof.
  unfold uniform, bind, this, readTable; cbn [fst snd].
  destruct (uniforms self) as [o|].
  - unfold ret.
    destruct (obj_get o name) as [b| | |v] eqn:E; cbn [pv_truthy].
    + destruct (dispatchUniform_frame drv b value) as (r & cs & Hlen & H).
      exists r, cs. split; [exact Hlen|]. intros st. apply H.
    + eexists (Throw _), []. split; [cbn; lia|].
      intros st. rewrite afterCalls_nil. reflexivity.
    + eexists (Throw _), []. split; [cbn; lia|].
      intros st. rewrite afterCalls_nil. reflexivity.
    + destruct (js_truthy v).
      * eexists (Throw _), []. split; [cbn; lia|].
        intros st. rewrite afterCalls_nil. reflexivity.
      * exists (Ok ()), []. split; [cbn; lia|].
        intros st. rewrite afterCalls_nil. reflexivity.
  - eexists (Throw _), []. split; [cbn; lia|].
    intros st. rewrite afterCalls_nil. reflexivity.
Qed.

(** X8: [attribute] never writes to the program object and never creates a
    GPU object; either it makes no call at all, or it returns normally
    after exactly its three calls. *)
Theorem attribute_frame drv self name buffer stride offset :
  exists r cs,
    (cs = [] \/ (r = Ok () /\ length cs = 3%nat))
    /\ forall st,
         attribute drv name buffer stride offset (self, st)
         = (r, (self, afterCalls cs st)).
Proof.
  unfold attribute, bind, this, readTable; cbn [fst snd].
  destruct (attributes self) as [o|].
  - unfold ret.
    destruct (obj_get o name) as [b| | |v] eqn:E; cbn [pv_truthy].
    + eexists (Ok ()), _. split.
      2:{ intros st. unfold gl, invoke, afterCalls; cbn [fst snd calls next_handle].
          rewrite <- !app_assoc. reflexivity. }
      right. split; reflexivity.
    + eexists (Throw _), []. split; [left; reflexivity|].
      intros st. rewrite afterCalls_nil. reflexivity.
    + eexists (Throw _), []. split; [left; reflexivity|].
      intros st. rewrite afterCalls_nil. reflexivity.
    + destruct (js_truthy v).
      * eexists (Throw _), []. split; [left; reflexivity|].
        intros st. rewrite afterCalls_nil. reflexivity.
      * exists (Ok ()), []. split; [left; reflexivity|].
        intros st. rewrite afterCalls_nil. reflexivity.
  - eexists (Throw _), []. split; [left; reflexivity|].
    intros st. rewrite afterCalls_nil. reflexivity.
Qed.

(** ** Reading the tables back *)

(** In a table filled from the empty object, the last binding assigned
    under a key is the one the key gives. *)
Lemma store_lookup (key : Binding -> string) bs1 b bs2 :
  Forall (fun b' => key b' <> key b) bs2 ->
  tableEntry
    (Some (fold_left (fun o b => obj_set o (key b) b) (bs1 ++ b :: bs2) emptyObject))
    (key b)
  = Some b.
Proof.
  intros Hlater. rewrite fold_left_app. cbn [fold_left].
  apply tableEntry_store_kept; [exact Hlater|].
  apply tableEntry_set_same, noOwnProto_store. apply lookup_empty.
Qed.

Lemma Forall2_Forall_info {R : ActiveInfo -> Binding -> Prop} (P : ActiveInfo -> Prop) us bs :
  (forall u b, R u b -> info b = u) ->
  Forall2 R us bs -> Forall P us -> Forall (fun b => P (info b)) bs.
Proof.
  intros Hinfo. induction 1 as [|u b us bs Hub _ IH]; intros HP; [constructor|].
  apply Forall_cons_1 in HP. destruct HP as [H1 H2].
  constructor; [rewrite (Hinfo _ _ Hub); exact H1|exact (IH H2)].
Qed.

(** X9: after a successful construction, every active attribute is found
    in the attribute table under its reported name, unchanged (no suffix is
    stripped), unless a later attribute has the same name; the binding holds
    its type token, its location and the reflection record, and [attribute]
    on that name describes the layout at the location the context reported
    for it. *)
Theorem attribute_table_lookup drv fsrc vsrc st0 p st1 a before after :
  newProgram drv fsrc vsrc st0 = (Ok p, st1) ->
  activeAttributes drv vsrc fsrc = (before ++ a :: after)%list ->
  Forall (fun a' => ai_name a' <> ai_name a) after ->
  exists b,
    tableEntry (attributes p) (ai_name a) = Some b
    /\ info b = a
    /\ getVariableType drv (ai_type a) = Ok (type b)
    /\ position b = attribLocation drv vsrc fsrc (ai_name a)
    /\ unit b = None
    /\ forall buffer stride offset st,
         attribute drv (ai_name a) buffer stride offset (p, st)
         = (Ok (),
            (p, afterCalls
                  [ Call "bindBuffer" [constant drv "ARRAY_BUFFER"; buffer];
                    Call "vertexAttribPointer"
                         [attribLocation drv vsrc fsrc (ai_name a);
                          vecSize (parseType (type b));
                          constant drv (baseType (parseType (type b)));
                          JBool false; stride; offset];
                    Call "enableVertexAttribArray"
                         [attribLocation drv vsrc fsrc (ai_name a)] ]
                  st)).
Proof.
  intros Hnew Hsplit Hafter.
  destruct (newProgram_ok _ _ _ _ _ _ Hnew) as (abs & ubs & HA & _ & _ & _ & ->).
  rewrite Hsplit in HA.
  apply Forall2_app_inv_l in HA. destruct HA as (bs1 & bs2' & _ & HA2 & ->).
  inversion HA2 as [|a0 b as0 bs2 (Hty & Hib & Hpos & Hunit) HA3]; subst a0 as0 bs2'.
  subst a. exists b. cbn [attributes]. unfold storeAttributes.
  assert (Hentry : tableEntry
                     (Some (fold_left (fun o b0 => obj_set o (ai_name (info b0)) b0)
                                      (bs1 ++ b :: bs2) emptyObject))
                     (ai_name (info b)) = Some b).
  { apply (store_lookup (fun b => ai_name (info b))).
    refine (Forall2_Forall_info (fun a' => ai_name a' <> ai_name (info b)) _ _ _ HA3 Hafter).
    intros u' b' (_ & Hi & _). exact Hi. }
  split; [exact Hentry|]. repeat (split; [assumption || reflexivity|]).
  intros buffer stride offset st. rewrite <- Hpos.
  apply attribute_on_entry. exact Hentry.
Qed.

Lemma attribute_table_lookup_demo :
  exists p st1 b,
    newProgram demo "f" "v" WebGL.fresh = (Ok p, st1)
    /\ tableEntry (attributes p) "aPosition" = Some b
    /\ info b = mkActiveInfo "aPosition" 1 35665
    /\ getVariableType demo 35665 = Ok (type b)
    /\ position b = JNum 0
    /\ unit b = None
    /\ forall buffer stride offset st,
         attribute demo "aPosition" buffer stride offset (p, st)
         = (Ok (),
            (p, afterCalls
                  [ Call "bindBuffer" [constant demo "ARRAY_BUFFER"; buffer];
                    Call "vertexAttribPointer"
                         [JNum 0; vecSize (parseType (type b));
                          constant demo (baseType (parseType (type b)));
                          JBool false; stride; offset];
                    Call "enableVertexAttribArray" [JNum 0] ]
                  st)).
Proof.
  destruct (newProgram demo "f" "v" WebGL.fresh) as [r st1] eqn:E.
  assert (Hr : exists p, r = Ok p)
    by (apply (f_equal fst) in E; cbn [fst] in E; subst r; vm_compute; eexists; reflexivity).
  destruct Hr as [p ->].
  destruct (attribute_table_lookup demo "f" "v" WebGL.fresh p st1
              (mkActiveInfo "aPosition" 1 35665) [] [mkActiveInfo "aUV" 1 35664]
              E eq_refl)
    as (b & H).
  - repeat constructor. vm_compute. discriminate.
  - exists p, st1, b. split; [reflexivity|exact H].
Defined.

Lemma samplerCount_filter drv vsrc fsrc us bs :
  Forall2 (reflectsUniform drv vsrc fsrc) us bs ->
  samplerCount drv us = length (List.filter isSampler bs).
Proof.
  unfold samplerCount. induction 1 as [|u b us bs (Hty & _) _ IH]; [reflexivity|].
  cbn [List.filter]. rewrite Hty. unfold isSampler at 1.
  destruct (isSamplerType (type b)); cbn [length]; rewrite IH; reflexivity.
Qed.

Lemma unitsAfter_nth base n i :
  (i < n)%nat -> nth i (unitsAfter base n) None = Some (base + Z.of_nat (S i)).
Proof.
  intros Hi. unfold unitsAfter.
  rewrite (nth_indep _ None (Some (base + Z.of_nat 0)))
    by (rewrite length_map, length_seq; exact Hi).
  rewrite (map_nth (fun k => Some (base + Z.of_nat k))), seq_nth by exact Hi.
  reflexivity.
Qed.

(** The unit of the sampler binding [b] in [bs1 ++ b :: bs2] is its rank
    among the samplers. *)
Lemma unit_is_rank bs1 b bs2 :
  map unit (List.filter isSampler (bs1 ++ b :: bs2))
  = unitsAfter 0 (length (List.filter isSampler (bs1 ++ b :: bs2))) ->
  isSampler b = true ->
  unit b = Some (Z.of_nat (S (length (List.filter isSampler bs1)))).
Proof.
  intros Hunits Hs. rewrite Stdlib.Lists.List.filter_app in Hunits. cbn [List.filter] in Hunits.
  rewrite Hs in Hunits.
  apply (f_equal (fun l => nth (length (List.filter isSampler bs1)) l None)) in Hunits.
  rewrite map_app, app_nth2, length_map, Nat.sub_diag in Hunits
    by (rewrite length_map; lia).
  cbn [map nth] in Hunits. rewrite Hunits, unitsAfter_nth.
  - f_equal.
  - rewrite length_app. cbn [length]. lia.
Qed.

(** X10: after a successful construction, every active uniform is found in
    the uniform table under its canonical name, unless a later uniform has
    the same canonical name; the binding holds its type token, its location
    and the reflection record, its texture unit is one more than the number
    of samplers enumerated before it (none for a non-sampler), and [uniform]
    on the canonical name issues the calls of its category. *)
Theorem uniform_table_lookup drv fsrc vsrc st0 p st1 u before after :
  newProgram drv fsrc vsrc st0 = (Ok p, st1) ->
  activeUniforms drv vsrc fsrc = (before ++ u :: after)%list ->
  Forall (fun u' => canonicalName (ai_name u') <> canonicalName (ai_name u)) after ->
  exists b,
    tableEntry (uniforms p) (canonicalName (ai_name u)) = Some b
    /\ info b = u
    /\ getVariableType drv (ai_type u) = Ok (type b)
    /\ position b = uniformLocation drv vsrc fsrc (ai_name u)
    /\ unit b = (if isSampler b then Some (Z.of_nat (S (samplerCount drv before)))
                 else None)
    /\ forall value st,
         exists cs,
           spec_setUniform drv b value = Some cs
           /\ uniform drv (canonicalName (ai_name u)) value (p, st)
              = (Ok (), (p, afterCalls cs st)).
Proof.
  intros Hnew Hsplit Hafter.
  destruct (newProgram_tables _ _ _ _ _ _ Hnew) as (uo & ao & Hu & _ & Huo & _).
  destruct (newProgram_ok _ _ _ _ _ _ Hnew) as (abs & ubs & _ & HU & Hunits & Hnone & ->).
  rewrite Hsplit in HU.
  apply Forall2_app_inv_l in HU. destruct HU as (bs1 & bs2' & HU1 & HU2 & ->).
  inversion HU2 as [|u0 b us0 bs2 (Hty & Hib & Hpos) HU3]; subst u0 us0 bs2'.
  subst u. exists b. cbn [uniforms] in *. unfold storeUniforms in *.
  assert (Hentry : tableEntry
                     (Some (fold_left
                              (fun o b0 => obj_set o (canonicalName (ai_name (info b0))) b0)
                              (bs1 ++ b :: bs2) emptyObject))
                     (canonicalName (ai_name (info b))) = Some b).
  { apply (store_lookup (fun b => canonicalName (ai_name (info b)))).
    refine (Forall2_Forall_info
              (fun u' => canonicalName (ai_name u') <> canonicalName (ai_name (info b)))
              _ _ _ HU3 Hafter).
    intros u' b' (_ & Hi & _). exact Hi. }
  split; [exact Hentry|].
  split; [reflexivity|]. split; [exact Hty|]. split; [exact Hpos|]. split.
  - rewrite (samplerCount_filter _ _ _ _ _ HU1).
    destruct (isSampler b) eqn:Hs.
    + exact (unit_is_rank _ _ _ Hunits Hs).
    + rewrite Forall_forall in Hnone. apply Hnone, list_elem_of_In, filter_In.
      split; [apply in_or_app; right; left; reflexivity|rewrite Hs; reflexivity].
  - intros value st.
    match goal with
    | |- context [uniform _ _ _ (?P, _)] =>
        rewrite (uniform_on_entry drv P st _ value b Hentry)
    end.
    apply dispatchUniform_refines.
    injection Hu as <-. exact (tableEntry_forall _ _ _ _ Huo Hentry).
Qed.

Lemma uniform_table_lookup_demo :
  exists p st1 b,
    newProgram demo "f" "v" WebGL.fresh = (Ok p, st1)
    /\ tableEntry (uniforms p) "uEnv" = Some b
    /\ info b = mkActiveInfo "uEnv" 1 35680
    /\ getVariableType demo 35680 = Ok (type b)
    /\ position b = JRef 103
    /\ unit b = (if isSampler b then Some 2 else None)
    /\ forall value st,
         exists cs,
           spec_setUniform demo b value = Some cs
           /\ uniform demo "uEnv" value (p, st) = (Ok (), (p, afterCalls cs st)).
Proof.
  destruct (newProgram demo "f" "v" WebGL.fresh) as [r st1] eqn:E.
  assert (Hr : exists p, r = Ok p)
    by (apply (f_equal fst) in E; cbn [fst] in E; subst r; vm_compute; eexists; reflexivity).
  destruct Hr as [p ->].
  destruct (uniform_table_lookup demo "f" "v" WebGL.fresh p st1
              (mkActiveInfo "uEnv" 1 35680)
              [ mkActiveInfo "uPMatrix" 1 35676; mkActiveInfo "uSampler" 1 35678;
                mkActiveInfo "uColors[0]" 4 35666 ] []
              E eq_refl)
    as (b & H).
  - constructor.
  - exists p, st1, b. split; [reflexivity|exact H].
Defined.

(** ** Texture units within the counter *)

Lemma units_within (bs : list Binding) base n :
  map unit bs = unitsAfter base n ->
  Forall (fun b => exists k, unit b = Some k /\ base < k <= base + Z.of_nat n) bs.
Proof.
  unfold unitsAfter. intros H.
  apply Forall_forall. intros b Hb. apply list_elem_of_In in Hb.
  apply (in_map unit) in Hb. rewrite H in Hb.
  apply in_map_iff in Hb. destruct Hb as (k & Hk & Hin).
  apply in_seq in Hin. exists (base + Z.of_nat k). split; [symmetry; exact Hk|lia].
Qed.

(** X11: in a constructed program every sampler binding of the uniform
    table holds a unit between 1 and the final value of the counter: unit 0
    is never assigned, and no unit exceeds the number of samplers. *)
Theorem sampler_unit_within_counter drv fsrc vsrc st0 p st1 name b :
  newProgram drv fsrc vsrc st0 = (Ok p, st1) ->
  tableEntry (uniforms p) name = Some b ->
  isSampler b = true ->
  exists k, unit b = Some k /\ 1 <= k <= textureCount p.
Proof.
  intros Hnew Hentry Hs.
  destruct (newProgram_ok _ _ _ _ _ _ Hnew) as (abs & ubs & _ & _ & Hunits & _ & ->).
  cbn [uniforms textureCount] in *.
  apply units_within in Hunits.
  assert (Hall : Forall (fun b => isSampler b = true ->
                                  exists k, unit b = Some k
                                            /\ 1 <= k
                                               <= Z.of_nat (length (List.filter isSampler ubs)))
                        ubs).
  { rewrite Forall_forall in Hunits. apply Forall_forall. intros b' Hb' Hs'.
    destruct (Hunits b') as (k & Hk & Hr).
    - apply list_elem_of_In, filter_In. split; [apply list_elem_of_In, Hb'|exact Hs'].
    - exists k. split; [exact Hk|lia]. }
  refine (tableEntry_forall
            (fun b => isSampler b = true ->
                      exists k, unit b = Some k
                                /\ 1 <= k <= Z.of_nat (length (List.filter isSampler ubs)))
            _ _ _ _ Hentry Hs).
  apply tableForall_store; [exact Hall|apply tableForall_empty].
Qed.

Lemma sampler_unit_within_counter_demo :
  exists p st1 b,
    newProgram demo "f" "v" WebGL.fresh = (Ok p, st1)
    /\ tableEntry (uniforms p) "uSampler" = Some b
    /\ isSampler b = true
    /\ exists k, unit b = Some k /\ 1 <= k <= textureCount p.
Proof.
  eexists _, _, _. split; [vm_compute; reflexivity|]. split; [vm_compute; reflexivity|].
  split; [vm_compute; reflexivity|].
  refine (sampler_unit_within_counter demo "f" "v" WebGL.fresh _ _ "uSampler" _ _ _ _);
    vm_compute; reflexivity.
Defined.

(** ** The calls of the construction *)

Lemma attributeLoop_calls drv vsrc fsrc program pending :
  forall i attrs self st,
    exists cs,
      calls (snd (snd (attributeLoop drv vsrc fsrc program i pending attrs (self, st))))
      = (calls st ++ cs)%list
      /\ Forall (fun c => In (methodOf c) constructionMethods) cs.
Proof.
  induction pending as [|a rest IH]; intros i attrs self st.
  - exists []. split; [cbn; rewrite app_nil_r; reflexivity|constructor].
  - rewrite attributeLoop_cons. cbn zeta.
    destruct (getVariableType drv (ai_type a)) as [ty|e].
    + match goal with
      | |- context [attributeLoop _ _ _ _ ?i' _ ?o (_, ?s)] =>
          destruct (IH i' o self s) as (cs & Hcs & Hall)
      end.
      eexists (_ :: _ :: cs). split.
      * rewrite Hcs. unfold logCall; cbn [calls]. rewrite <- !app_assoc. reflexivity.
      * repeat (constructor; [cbn; tauto|]). exact Hall.
    + eexists [_]. split; [reflexivity|]. constructor; [cbn; tauto|constructor].
Qed.

Lemma uniformLoop_calls drv vsrc fsrc program pending :
  forall i unifs self st,
    exists cs,
      calls (snd (snd (uniformLoop drv vsrc fsrc program i pending unifs (self, st))))
      = (calls st ++ cs)%list
      /\ Forall (fun c => In (methodOf c) constructionMethods) cs.
Proof.
  induction pending as [|u rest IH]; intros i unifs self st.
  - exists []. split; [cbn; rewrite app_nil_r; reflexivity|constructor].
  - rewrite uniformLoop_cons, reflectUniform_run. cbn zeta.
    destruct (getVariableType drv (ai_type u)) as [ty|e].
    + destruct (isSamplerType ty);
        match goal with
        | |- context [uniformLoop _ _ _ _ ?i' _ ?o (?self', ?s)] =>
            destruct (IH i' o self' s) as (cs & Hcs & Hall)
        end;
        (eexists (_ :: _ :: cs); split;
         [rewrite Hcs; unfold logCall; cbn [calls]; rewrite <- !app_assoc; reflexivity
         |repeat (constructor; [cbn; tauto|]); exact Hall]).
    + eexists [_]. split; [reflexivity|]. constructor; [cbn; tauto|constructor].
Qed.

(** X13: whatever its outcome, the constructor only appends to the command
    stream, and only calls that create, compile, attach, link or query: no
    shader or program is ever deleted or detached by it, and the program is
    not made current ([useProgram] is left to the caller). *)
Theorem newProgram_calls drv fsrc vsrc st :
  exists cs,
    calls (snd (newProgram drv fsrc vsrc st)) = (calls st ++ cs)%list
    /\ Forall (fun c => In (methodOf c) constructionMethods) cs.
Proof.
  assert (Hsnd : snd (newProgram drv fsrc vsrc st)
                 = snd (snd (initProgram drv (mkProgram JUndefined None None 0 fsrc vsrc, st)))).
  { unfold newProgram. destruct (initProgram _ _) as [[u|e] [self' st']]; reflexivity. }
  rewrite Hsnd, initProgram_run. cbn zeta. cbn [fShaderSource vShaderSource].
  unfold compileCalls, linkCalls.
  destruct (negb (compileStatus drv _ fsrc)).
  { eexists. split; [cbn [snd calls]; rewrite <- !app_assoc; reflexivity|].
    cbn [app]. repeat (constructor; [cbn; tauto|]). constructor. }
  destruct (negb (compileStatus drv _ vsrc)).
  { eexists. split; [cbn [snd calls]; rewrite <- !app_assoc; reflexivity|].
    cbn [app]. repeat (constructor; [cbn; tauto|]). constructor. }
  destruct (negb (linkStatus drv vsrc fsrc)).
  { eexists. split; [cbn [snd calls]; rewrite <- !app_assoc; reflexivity|].
    cbn [app]. repeat (constructor; [cbn; tauto|]). constructor. }
  match goal with
  | |- context [attributeLoop ?d ?v ?f ?pr ?i ?l ?o (?self, ?s)] =>
      destruct (attributeLoop_calls d v f pr l i o self s) as (csA & HA & PA);
      destruct (attributeLoop d v f pr i l o (self, s)) as [[attrs|e] [self1 st1]]
  end; cbn [snd calls] in HA.
  - match goal with
    | |- context [uniformLoop ?d ?v ?f ?pr ?i ?l ?o (?self, ?s)] =>
        destruct (uniformLoop_calls d v f pr l i o self s) as (csU & HU & PU);
        destruct (uniformLoop d v f pr i l o (self, s)) as [[unifs|e] [self2 st2]]
    end; cbn [snd calls logCall] in HU |- *;
      (eexists; split;
       [rewrite HU, HA, <- !app_assoc; reflexivity
       |cbn [app]; repeat (constructor; [cbn; tauto|]);
        apply Forall_app; split;
        [exact PA|constructor; [cbn; tauto|exact PU]]]).
  - eexists. split; [cbn [snd]; rewrite HA, <- !app_assoc; reflexivity|].
    cbn [app]. repeat (constructor; [cbn; tauto|]). exact PA.
Qed.

Lemma attributeLoop_ok_trace drv vsrc fsrc program pending :
  forall i attrs self st attrs' self' st',
    attributeLoop drv vsrc fsrc program i pending attrs (self, st)
    = (Ok attrs', (self', st')) ->
    next_handle st' = next_handle st
    /\ exists cs, calls st' = (calls st ++ cs)%list
                  /\ length cs = (2 * length pending)%nat.
Proof.
  induction pending as [|a rest IH]; intros i attrs self st attrs' self' st'.
  - intros [= _ _ <-]. split; [reflexivity|].
    exists []. split; [rewrite app_nil_r; reflexivity|reflexivity].
  - rewrite attributeLoop_cons. cbn zeta.
    destruct (getVariableType drv (ai_type a)) as [ty|e]; [|discriminate].
    intros H. destruct (IH _ _ _ _ _ _ _ H) as (Hh & cs & Hcs & Hlen).
    split; [exact Hh|].
    eexists (_ :: _ :: cs). split.
    + rewrite Hcs. unfold logCall; cbn [calls]. rewrite <- !app_assoc. reflexivity.
    + cbn [length]. lia.
Qed.

Lemma uniformLoop_ok_trace drv vsrc fsrc program pending :
  forall i unifs self st unifs' self' st',
    uniformLoop drv vsrc fsrc program i pending unifs (self, st)
    = (Ok unifs', (self', st')) ->
    next_handle st' = next_handle st
    /\ exists cs, calls st' = (calls st ++ cs)%list
                  /\ length cs = (2 * length pending)%nat.
Proof.
  induction pending as [|u rest IH]; intros i unifs self st unifs' self' st'.
  - intros [= _ _ <-]. split; [reflexivity|].
    exists []. split; [rewrite app_nil_r; reflexivity|reflexivity].
  - rewrite uniformLoop_cons, reflectUniform_run. cbn zeta.
    destruct (getVariableType drv (ai_type u)) as [ty|e]; [|discriminate].
    destruct (isSamplerType ty); intros H;
      destruct (IH _ _ _ _ _ _ _ H) as (Hh & cs & Hcs & Hlen);
      (split; [exact Hh|]; eexists (_ :: _ :: cs); split;
       [rewrite Hcs; unfold logCall; cbn [calls]; rewrite <- !app_assoc; reflexivity
       |cbn [length]; lia]).
Qed.

(** X14: a successful construction compiles the fragment stage before the
    vertex stage, attaches the vertex shader before the fragment shader,
    links, and then makes 2 + 2n further calls for n active variables (a
    count query per table, two queries per variable); the handle stored in
    the object is the one of the program that was linked, the sources are
    kept, and three GPU objects were created. *)
Theorem newProgram_success_trace drv fsrc vsrc st p st' :
  newProgram drv fsrc vsrc st = (Ok p, st') ->
  let h := next_handle st in
  glProgram p = JRef (S (S h))
  /\ fShaderSource p = fsrc /\ vShaderSource p = vsrc
  /\ next_handle st' = (3 + h)%nat
  /\ exists cs,
       calls st'
       = (calls st
          ++ compileCalls drv "FRAGMENT_SHADER" h fsrc
          ++ compileCalls drv "VERTEX_SHADER" (S h) vsrc
          ++ linkCalls drv h
          ++ cs)%list
       /\ length cs
          = (2 + 2 * (length (activeAttributes drv vsrc fsrc)
                      + length (activeUniforms drv vsrc fsrc)))%nat.
Proof.
  intros Hnew h.
  destruct (newProgram_ok _ _ _ _ _ _ Hnew) as (abs & ubs & _ & _ & _ & _ & Hp).
  split; [rewrite Hp; reflexivity|].
  split; [rewrite Hp; reflexivity|]. split; [rewrite Hp; reflexivity|].
  clear Hp abs ubs. revert Hnew.
  unfold newProgram. rewrite initProgram_run. cbn zeta.
  cbn [fShaderSource vShaderSource]. fold h.
  destruct (negb (compileStatus drv _ fsrc)); [discriminate|].
  destruct (negb (compileStatus drv _ vsrc)); [discriminate|].
  destruct (negb (linkStatus drv vsrc fsrc)); [discriminate|].
  destruct (attributeLoop _ _ _ _ _ _ _ _) as [[attrs|e] [self1 st1]] eqn:EA; [|discriminate].
  destruct (uniformLoop _ _ _ _ _ _ _ _) as [[unifs|e] [self2 st2]] eqn:EU; [|discriminate].
  intros [= _ <-].
  destruct (attributeLoop_ok_trace _ _ _ _ _ _ _ _ _ _ _ _ EA) as (HhA & csA & HA & HlA).
  destruct (uniformLoop_ok_trace _ _ _ _ _ _ _ _ _ _ _ _ EU) as (HhU & csU & HU & HlU).
  cbn [next_handle calls logCall] in *.
  split; [rewrite HhU, HhA; reflexivity|].
  eexists. split.
  - rewrite HU, HA, <- !app_assoc. reflexivity.
  - cbn [app length]. rewrite length_app. cbn [length]. lia.
Qed.

Lemma newProgram_success_trace_demo :
  exists p st',
    newProgram demo "f" "v" WebGL.fresh = (Ok p, st')
    /\ glProgram p = JRef 2
    /\ fShaderSource p = "f" /\ vShaderSource p = "v"
    /\ next_handle st' = 3%nat
    /\ exists cs,
         calls st'
         = (compileCalls demo "FRAGMENT_SHADER" 0 "f"
            ++ compileCalls demo "VERTEX_SHADER" 1 "v"
            ++ linkCalls demo 0 ++ cs)%list
         /\ length cs = 14%nat.
Proof.
  eexists _, _. split; [vm_compute; reflexivity|].
  refine (newProgram_success_trace demo "f" "v" WebGL.fresh _ _ _).
  vm_compute; reflexivity.
Defined.
